(** * ContentManagementAgentsTS: the content pipeline, its transports and
      the job store, embedded from the TypeScript sources.

    Layout of the development
    - [JsString]  : JavaScript strings as sequences of UTF-16 code units and
                    the string methods the sources call;
    - [Slug]      : [createSlug] (src/utils/helpers.ts, PublisherAgent);
    - [Runtime]   : the world the program runs in (chat-completion replies,
                    clock, emitter, file system, S3 bucket) and the monad
                    that threads it together with thrown errors;
    - [Agents]    : the six stage agents;
    - [Workflow]  : EnhancedContentWorkflow.run / runBatch;
    - [Lambda]    : the serverless handler and runWorkflowAsync;
    - [Express]   : the POST /api/workflow route of the web server. *)

From Stdlib Require Import NArith ZArith List String Ascii Lia DecimalString.
From stdpp Require Import base list gmap.

Local Open Scope N_scope.
Set Warnings "-register-all".

(* ================================================================== *)
(** * JavaScript strings *)
(* ================================================================== *)

(** A JavaScript string is a finite sequence of 16-bit code units. *)
Definition jsstring := list N.

(** An ASCII literal of the sources. *)
Definition js (s : string) : jsstring := map N_of_ascii (list_ascii_of_string s).

(** What the host supplies and the sources only call: Unicode lower-casing
    outside ASCII (which may look at the context, as the final-sigma rule
    does, and may yield ASCII letters, as the Kelvin sign does), [path.join],
    the rendering of the clock by [toISOString] and [crypto.randomUUID]. *)
Class Platform := {
  lowerOther : jsstring -> N -> jsstring -> jsstring;
  path_join : jsstring -> jsstring -> jsstring;
  isoString : nat -> jsstring;
  randomUUID : nat -> jsstring
}.

Module JsString.

Definition hyphen : N := 45.
Definition newline : N := 10.

(** [[a-z0-9]] *)
Definition isLowerAlnum (c : N) : bool :=
  ((97 <=? c) && (c <=? 122)) || ((48 <=? c) && (c <=? 57)).

(** [\s], and the characters [trim] removes: WhiteSpace and LineTerminator
    of ECMAScript. *)
Definition isWhiteSpace (c : N) : bool :=
  ((9 <=? c) && (c <=? 13)) || (c =? 32) || (c =? 160) || (c =? 5760)
  || ((8192 <=? c) && (c <=? 8202)) || (c =? 8232) || (c =? 8233)
  || (c =? 8239) || (c =? 8287) || (c =? 12288) || (c =? 65279).

Definition lowerAscii (c : N) : N :=
  if (65 <=? c) && (c <=? 90) then c + 32 else c.

Section WithPlatform.
Context `{Platform}.

Fixpoint lowerFrom (before s : jsstring) : jsstring :=
  match s with
  | [] => []
  | c :: rest =>
      (if c <? 128 then [lowerAscii c] else lowerOther before c rest)
        ++ lowerFrom (before ++ [c]) rest
  end.

(** [String.prototype.toLowerCase] *)
Definition toLowerCase (s : jsstring) : jsstring := lowerFrom [] s.
End WithPlatform.

Fixpoint dropWhile (p : N -> bool) (s : jsstring) : jsstring :=
  match s with
  | [] => []
  | c :: rest => if p c then dropWhile p rest else s
  end.

Definition dropWhileEnd (p : N -> bool) (s : jsstring) : jsstring :=
  rev (dropWhile p (rev s)).

(** [String.prototype.trim] *)
Definition trim (s : jsstring) : jsstring :=
  dropWhileEnd isWhiteSpace (dropWhile isWhiteSpace s).

Fixpoint startsWith (pat s : jsstring) : bool :=
  match pat, s with
  | [], _ => true
  | _ :: _, [] => false
  | p :: pat', c :: s' => (p =? c) && startsWith pat' s'
  end.

(** [String.prototype.includes] *)
Fixpoint includes (pat s : jsstring) : bool :=
  startsWith pat s ||
  match s with
  | [] => false
  | _ :: rest => includes pat rest
  end.

(** [s.indexOf(pat, from)]; [None] stands for -1. *)
Fixpoint indexOfFrom (pat : jsstring) (from : nat) (s : jsstring) : option nat :=
  match from with
  | S k =>
      match s with
      | [] => if startsWith pat [] then Some O else None
      | _ :: rest => S <$> indexOfFrom pat k rest
      end
  | O =>
      if startsWith pat s then Some O
      else match s with
           | [] => None
           | _ :: rest => S <$> indexOfFrom pat O rest
           end
  end.

Definition indexOf (pat s : jsstring) : option nat := indexOfFrom pat O s.

(** [s.substring(a)] and [s.substring(a, b)] for [a <= b]. *)
Definition substringFrom (a : nat) (s : jsstring) : jsstring := drop a s.
Definition substring (a b : nat) (s : jsstring) : jsstring := take (b - a) (drop a s).

(** [s.split(sep)] for a regular expression matching one code unit of the
    class [sep]: every such unit ends a piece. *)
Fixpoint splitAt (sep : N -> bool) (cur : jsstring) (s : jsstring) : list jsstring :=
  match s with
  | [] => [rev cur]
  | c :: rest =>
      if sep c then rev cur :: splitAt sep [] rest
      else splitAt sep (c :: cur) rest
  end.

(** [s.split(/\s+/)]: every maximal run of white space ends a piece;
    [inRun] says that the previous code unit belonged to such a run. *)
Fixpoint splitRuns (sep : N -> bool) (inRun : bool) (cur : jsstring) (s : jsstring)
  : list jsstring :=
  match s with
  | [] => [rev cur]
  | c :: rest =>
      if sep c then
        if inRun then splitRuns sep true [] rest
        else rev cur :: splitRuns sep true [] rest
      else splitRuns sep false (c :: cur) rest
  end.

Definition splitWhiteSpace (s : jsstring) : list jsstring :=
  splitRuns isWhiteSpace false [] s.

(** [n.toString()] in a template literal. *)
Definition decimal (n : nat) : jsstring :=
  js (NilZero.string_of_uint (Nat.to_uint n)).

(** [parts.join(sep)] *)
Fixpoint join (sep : jsstring) (parts : list jsstring) : jsstring :=
  match parts with
  | [] => []
  | [p] => p
  | p :: rest => p ++ sep ++ join sep rest
  end.

End JsString.

(* ================================================================== *)
(** * createSlug *)
(* ================================================================== *)

Module Slug.
Import JsString.

(** [.replace(/[^a-z0-9]+/g, '-')]: every maximal run of code units
    outside [a-z0-9] becomes one hyphen. *)
Fixpoint replaceNonAlnumRuns (inRun : bool) (s : jsstring) : jsstring :=
  match s with
  | [] => []
  | c :: rest =>
      if isLowerAlnum c then c :: replaceNonAlnumRuns false rest
      else if inRun then replaceNonAlnumRuns true rest
      else hyphen :: replaceNonAlnumRuns true rest
  end.

Definition isHyphen (c : N) : bool := c =? hyphen.

(** [.replace(/^-+|-+$/g, '')]: the hyphens at the start and the hyphens
    at the end are removed. *)
Definition stripHyphens (s : jsstring) : jsstring :=
  dropWhileEnd isHyphen (dropWhile isHyphen s).

(** src/utils/helpers.ts [createSlug]; PublisherAgent.createSlug has the
    same body. *)
Definition createSlug `{Platform} (text : jsstring) : jsstring :=
  stripHyphens (replaceNonAlnumRuns false (toLowerCase text)).

(** The shape of a slug. *)
Definition slugChar (c : N) : bool := isLowerAlnum c || isHyphen c.

Fixpoint noDoubleHyphen (s : jsstring) : bool :=
  match s with
  | c :: ((d :: _) as rest) => negb (isHyphen c && isHyphen d) && noDoubleHyphen rest
  | _ => true
  end.

(** What the claims call a slug. *)
Record isSlug (u : jsstring) : Prop := {
  slug_chars : Forall (fun c => slugChar c = true) u;
  slug_head : head u <> Some hyphen;
  slug_last : last u <> Some hyphen;
  slug_noDouble : noDoubleHyphen u = true
}.

End Slug.

(* ================================================================== *)
(** * The world the program runs in *)
(* ================================================================== *)

Module Runtime.

(** JSON values: what [JSON.parse] yields and [JSON.stringify] prints.
    Bodies of requests, of responses and of stored objects are kept as
    values; a property whose value is [undefined] is left out, as
    [JSON.stringify] leaves it out. *)
Inductive json :=
| JNull
| JBool (b : bool)
| JNum (n : Z)
| JStr (s : jsstring)
| JArr (items : list json)
| JObj (fields : list (jsstring * json)).

(** Property lookup [obj.key]; [None] is [undefined]. *)
Fixpoint lookupField (key : jsstring) (fields : list (jsstring * json)) : option json :=
  match fields with
  | [] => None
  | (k, v) :: rest => if decide (k = key) then Some v else lookupField key rest
  end.

Definition getField (key : jsstring) (j : json) : option json :=
  match j with
  | JObj fields => lookupField key fields
  | _ => None
  end.

(** A thrown [Error]. *)
Record JsError := { name : jsstring; message : jsstring }.

Inductive Outcome (A : Type) :=
| Returned (a : A)
| Thrown (e : JsError).
Arguments Returned {A} a.
Arguments Thrown {A} e.

Inductive Stage := Research | Writer | Editor | SEO | Publisher | HTML.

(** The payload of an ['agent-progress'] event. *)
Record ProgressEvent := {
  agent : jsstring;
  status : jsstring;
  output : option jsstring;
  pmessage : option jsstring
}.

(** A listener of the sources: a closure that pushes [{type, data}] onto
    the [progressEvents] array [sink] of one handler invocation. *)
Record Listener := { event : jsstring; sink : nat; tag : jsstring }.

(** An article of the index page. *)
Record IndexEntry := { entryTitle : jsstring; entryFile : jsstring; entryWords : nat }.

(** What the program does to the outside, in the order it does it. *)
Inductive Obs :=
| LLMCall (stage : Stage) (vars : list (jsstring * jsstring))
| Emit (event : jsstring) (ev : ProgressEvent)
| Deliver (sink : nat) (tag : jsstring) (ev : ProgressEvent)
| Mkdir (path : jsstring)
| WriteFile (path content : jsstring)
| WriteIndexPage (path : jsstring) (articles : list IndexEntry)
| S3Put (key : jsstring) (body : json)
| Sleep (ms : nat).

(** - [llm]: the replies the chat-completion API will give, in order; a
      reply is a message content or an error; with none left the call
      fails;
    - [clock], [uuidsDrawn]: readings taken from the clock and from
      [randomUUID] so far;
    - [globalEmitter]: whether [setGlobalEmitter] was called;
    - [listeners]: the listeners registered on that emitter;
    - [sinks]: [progressEvents] arrays created so far;
    - [pending]: [runWorkflowAsync] calls started and not yet settled;
    - [bucket]: the objects of the results bucket;
    - [trace]: what was done so far.
    The file system and the bucket accept every write; [console.log]
    is not recorded. *)
Record World := {
  llm : list (Outcome jsstring);
  clock : nat;
  uuidsDrawn : nat;
  globalEmitter : bool;
  listeners : list Listener;
  sinks : nat;
  pending : list (jsstring * jsstring);
  bucket : gmap jsstring json;
  trace : list Obs
}.

Definition M (A : Type) : Type := World -> Outcome A * World.

Definition ret {A} (a : A) : M A := fun w => (Returned a, w).

Definition bind {A B} (c : M A) (k : A -> M B) : M B :=
  fun w =>
    match c w with
    | (Returned a, w') => k a w'
    | (Thrown e, w') => (Thrown e, w')
    end.

Definition throw {A} (e : JsError) : M A := fun w => (Thrown e, w).

(** [try { c } catch (error) { h error }] *)
Definition tryCatch {A} (c : M A) (h : JsError -> M A) : M A :=
  fun w =>
    match c w with
    | (Returned a, w') => (Returned a, w')
    | (Thrown e, w') => h e w'
    end.

Definition logAll (os : list Obs) : M unit :=
  fun w =>
    (Returned tt,
     {| llm := llm w; clock := clock w; uuidsDrawn := uuidsDrawn w;
        globalEmitter := globalEmitter w; listeners := listeners w;
        sinks := sinks w; pending := pending w; bucket := bucket w;
        trace := trace w ++ os |}).

Definition log (o : Obs) : M unit := logAll [o].

Definition unreachable : JsError :=
  {| name := js "Error"; message := js "Connection error." |}.

(** [await chain.invoke(vars)]: the request is sent, the next reply of
    the API is its result. *)
Definition invoke (stage : Stage) (vars : list (jsstring * jsstring)) : M jsstring :=
  fun w =>
    let t := trace w ++ [LLMCall stage vars] in
    let mk rest :=
      {| llm := rest; clock := clock w; uuidsDrawn := uuidsDrawn w;
         globalEmitter := globalEmitter w; listeners := listeners w;
         sinks := sinks w; pending := pending w; bucket := bucket w;
         trace := t |} in
    match llm w with
    | [] => (Thrown unreachable, mk [])
    | reply :: rest => (reply, mk rest)
    end.

(** [new Date().toISOString()] *)
Definition now `{Platform} : M jsstring :=
  fun w =>
    (Returned (isoString (clock w)),
     {| llm := llm w; clock := S (clock w); uuidsDrawn := uuidsDrawn w;
        globalEmitter := globalEmitter w; listeners := listeners w;
        sinks := sinks w; pending := pending w; bucket := bucket w;
        trace := trace w |}).

(** [randomUUID()] *)
Definition drawUUID `{Platform} : M jsstring :=
  fun w =>
    (Returned (randomUUID (uuidsDrawn w)),
     {| llm := llm w; clock := clock w; uuidsDrawn := S (uuidsDrawn w);
        globalEmitter := globalEmitter w; listeners := listeners w;
        sinks := sinks w; pending := pending w; bucket := bucket w;
        trace := trace w |}).

Definition getGlobalEmitter : M bool := fun w => (Returned (globalEmitter w), w).

(** [setGlobalEmitter(emitter)] *)
Definition setGlobalEmitter : M unit :=
  fun w =>
    (Returned tt,
     {| llm := llm w; clock := clock w; uuidsDrawn := uuidsDrawn w;
        globalEmitter := true; listeners := listeners w;
        sinks := sinks w; pending := pending w; bucket := bucket w;
        trace := trace w |}).

Definition setListeners (ls : list Listener) : M unit :=
  fun w =>
    (Returned tt,
     {| llm := llm w; clock := clock w; uuidsDrawn := uuidsDrawn w;
        globalEmitter := globalEmitter w; listeners := ls;
        sinks := sinks w; pending := pending w; bucket := bucket w;
        trace := trace w |}).

Definition getListeners : M (list Listener) := fun w => (Returned (listeners w), w).

(** [const progressEvents: any[] = []] *)
Definition newSink : M nat :=
  fun w =>
    (Returned (sinks w),
     {| llm := llm w; clock := clock w; uuidsDrawn := uuidsDrawn w;
        globalEmitter := globalEmitter w; listeners := listeners w;
        sinks := S (sinks w); pending := pending w; bucket := bucket w;
        trace := trace w |}).

Definition setPending (p : list (jsstring * jsstring)) : M unit :=
  fun w =>
    (Returned tt,
     {| llm := llm w; clock := clock w; uuidsDrawn := uuidsDrawn w;
        globalEmitter := globalEmitter w; listeners := listeners w;
        sinks := sinks w; pending := p; bucket := bucket w;
        trace := trace w |}).

Definition getPending : M (list (jsstring * jsstring)) :=
  fun w => (Returned (pending w), w).

Definition getTrace : M (list Obs) := fun w => (Returned (trace w), w).

(** [emitter.emit(name, ev)]: the listeners registered for [name] are
    called in the order of their registration. *)
Definition emit (name : jsstring) (ev : ProgressEvent) : M unit :=
  bind getListeners (fun ls =>
  logAll (Emit name ev
          :: map (fun l => Deliver (sink l) (tag l) ev)
                 (filter (fun l => event l = name) ls))).

(** [emitter.on(name, listener)] and [emitter.off(name, listener)] *)
Definition on (l : Listener) : M unit :=
  bind getListeners (fun ls => setListeners (ls ++ [l])).

Global Instance Listener_eq_dec : EqDecision Listener.
Proof. solve_decision. Defined.

Definition off (l : Listener) : M unit :=
  bind getListeners (fun ls => setListeners (filter (fun l' => l' <> l) ls)).

(** [s3Client.send(new PutObjectCommand({Key, Body}))]: the object is
    overwritten whole. *)
Definition s3Put (key : jsstring) (body : json) : M unit :=
  fun w =>
    (Returned tt,
     {| llm := llm w; clock := clock w; uuidsDrawn := uuidsDrawn w;
        globalEmitter := globalEmitter w; listeners := listeners w;
        sinks := sinks w; pending := pending w;
        bucket := <[key := body]> (bucket w);
        trace := trace w ++ [S3Put key body] |}).

Definition noSuchKey : JsError :=
  {| name := js "NoSuchKey"; message := js "The specified key does not exist." |}.

(** [s3Client.send(new GetObjectCommand({Key}))] followed by
    [JSON.parse] of the body. *)
Definition s3Get (key : jsstring) : M json :=
  fun w =>
    match bucket w !! key with
    | Some body => (Returned body, w)
    | None => (Thrown noSuchKey, w)
    end.

End Runtime.

Declare Scope js_scope.
Notation "'let*' x ':=' c 'in' k" := (Runtime.bind c (fun x => k))
  (at level 10, x binder, c at level 100, k at level 200, only parsing) : js_scope.

Local Open Scope js_scope.

(* ================================================================== *)
(** * The stage agents *)
(* ================================================================== *)

(** Each agent sends one prompt, given by its variables, to the
    chat-completion API and works on the content of the reply.  The
    constructors ([new ChatOpenAI]) are taken to succeed. *)
Module Agents.
Import JsString Slug Runtime.

Record ContentMetadata := {
  title : jsstring;
  slug : jsstring;
  metaDescription : jsstring;
  keywords : list jsstring;
  publishedDate : jsstring;
  mstatus : jsstring;
  wordCount : nat;
  readingTime : nat;
  author : jsstring
}.

Record SEOOutput := {
  optimizedContent : jsstring;
  seoMetaDescription : jsstring;
  seoKeywords : list jsstring;
  recommendations : jsstring;
  seoSlug : jsstring;
  seoStatus : jsstring
}.

Record PublisherOutput := {
  formattedContent : jsstring;
  metadata : ContentMetadata;
  pubStatus : jsstring
}.

Record HTMLMetadata := {
  base : ContentMetadata;
  format : jsstring;
  hasEmbeddedCSS : bool;
  isResponsive : bool
}.

Record HTMLPublisherOutput := {
  htmlContent : jsstring;
  filePath : jsstring;
  fileName : jsstring;
  htmlMetadata : HTMLMetadata;
  htmlStatus : jsstring
}.

(** ** ResearchAgent (the key points [research] extracts are dropped by
    [run]) *)
Definition researchPromptVars (topic : jsstring) : list (jsstring * jsstring) :=
  [(js "topic", topic)].

Definition researchRun (topic : jsstring) : M jsstring :=
  invoke Research (researchPromptVars topic).

(** ** WriterAgent, with the default target length 800 *)
Definition writerPromptVars (topic research : jsstring) : list (jsstring * jsstring) :=
  [(js "topic", topic); (js "research", research); (js "length", decimal 800)].

Definition writerRun (topic research : jsstring) : M jsstring :=
  invoke Writer (writerPromptVars topic research).

(** ** EditorAgent *)
Definition editorPromptVars (content : jsstring) : list (jsstring * jsstring) :=
  [(js "content", content)].

Definition editorRun (content : jsstring) : M jsstring :=
  invoke Editor (editorPromptVars content).

(** ** SEOAgent *)
Definition extractSection (text sectionName : jsstring) : jsstring :=
  let startMarker := js "[" ++ sectionName ++ js "]" in
  match indexOf startMarker text with
  | None => text
  | Some startIndex =>
      let contentStart := (startIndex + length startMarker)%nat in
      match indexOfFrom (js "[") contentStart text with
      | None => trim (substringFrom contentStart text)
      | Some nextSectionIndex => trim (substring contentStart nextSectionIndex text)
      end
  end.

Definition isCommaOrNewline (c : N) : bool := (c =? 44) || (c =? newline).

Definition parseKeywords (keywordsText : jsstring) : list jsstring :=
  take 5 (filter (fun k => (0 < length k)%nat)
                 (map trim (splitAt isCommaOrNewline [] keywordsText))).

(** What [optimize] returns for the reply [out]. *)
Definition seoOutputOf (out : jsstring) : SEOOutput :=
  {| optimizedContent := extractSection out (js "OPTIMIZED CONTENT");
     seoMetaDescription := extractSection out (js "META DESCRIPTION");
     seoKeywords := parseKeywords (extractSection out (js "KEYWORDS"));
     recommendations := extractSection out (js "SEO RECOMMENDATIONS");
     seoSlug := extractSection out (js "SLUG");
     seoStatus := js "seo_optimized" |}.

Definition seoPromptVars (content topic : jsstring) : list (jsstring * jsstring) :=
  [(js "content", content); (js "topic", topic)].

Definition optimize (content topic : jsstring) : M SEOOutput :=
  let* out := invoke SEO (seoPromptVars content topic) in
  ret (seoOutputOf out).

(** ** PublisherAgent *)

(** [Math.max(1, Math.round(wordCount / 200))], the rounding being half
    up. *)
Definition estimateReadingTime (content : jsstring) : nat :=
  let wordCount := length (splitWhiteSpace content) in
  Nat.max 1 ((wordCount + 100) / 200).

Section WithPlatform.
Context `{Platform}.

Definition publisherPromptVars (content topic metaDescription : jsstring)
           (keywords : list jsstring) : list (jsstring * jsstring) :=
  [(js "content", content); (js "topic", topic);
   (js "metaDescription", metaDescription);
   (js "keywords", join (js ", ") keywords)].

Definition publish (content topic metaDescription : jsstring)
           (keywords : list jsstring) (slug : jsstring) : M PublisherOutput :=
  let* result := invoke Publisher
                   (publisherPromptVars content topic metaDescription keywords) in
  let* date := now in
  ret {| formattedContent := result;
         metadata :=
           {| title := topic;
              slug := match slug with [] => createSlug topic | _ => slug end;
              metaDescription := metaDescription;
              keywords := keywords;
              publishedDate := date;
              mstatus := js "published";
              wordCount := length (splitWhiteSpace content);
              readingTime := estimateReadingTime content;
              author := js "AI Content Team" |};
         pubStatus := js "ready_to_publish" |}.

(** The front matter [saveToFile] writes: one line per entry of the
    metadata, an array as a list of items. *)
Definition frontMatter (m : ContentMetadata) : jsstring :=
  let line k v := k ++ js ": " ++ v ++ [newline] in
  js "---" ++ [newline]
  ++ line (js "title") (title m)
  ++ line (js "slug") (slug m)
  ++ line (js "metaDescription") (metaDescription m)
  ++ (js "keywords:" ++ [newline]
      ++ join [newline] (map (fun v => js "  - " ++ v) (keywords m)) ++ [newline])
  ++ line (js "publishedDate") (publishedDate m)
  ++ line (js "status") (mstatus m)
  ++ line (js "wordCount") (decimal (wordCount m))
  ++ line (js "readingTime") (decimal (readingTime m))
  ++ line (js "author") (author m)
  ++ js "---" ++ [newline; newline].

(** [PublisherAgent.saveToFile(publicationData, outputDir = 'output')] *)
Definition saveToFile (publicationData : PublisherOutput) (outputDir : jsstring)
  : M jsstring :=
  let* _ := log (Mkdir outputDir) in
  let filename := path_join outputDir (slug (metadata publicationData) ++ js ".md") in
  let* _ := log (WriteFile filename
         (frontMatter (metadata publicationData)
          ++ formattedContent publicationData)) in
  ret filename.

(** ** HTMLPublisherAgent *)

(** [.replace(/```html\n?/g, '').replace(/```\n?/g, '')]: [fence] is the
    literal, [skip] the number of code units of a match still to be
    dropped. *)
Fixpoint removeFences (fence : jsstring) (skip : nat) (s : jsstring) : jsstring :=
  match s with
  | [] => []
  | c :: rest =>
      match skip with
      | S k => removeFences fence k rest
      | O =>
          if startsWith fence s then
            let n := length fence in
            let n' := if startsWith [newline] (drop n s) then S n else n in
            removeFences fence (n' - 1) rest
          else c :: removeFences fence O rest
      end
  end.

Definition cleanHTML (content : jsstring) : jsstring :=
  let cleaned :=
    trim (removeFences (js "```") O (removeFences (js "```html") O content)) in
  if includes (js "<!doctype") (toLowerCase cleaned) then cleaned
  else js "<!DOCTYPE html>" ++ [newline] ++ cleaned.

Definition htmlPromptVars (markdownContent : jsstring) (m : ContentMetadata)
  : list (jsstring * jsstring) :=
  [(js "content", markdownContent); (js "title", title m);
   (js "metaDescription", metaDescription m);
   (js "keywords", join (js ", ") (keywords m));
   (js "author", match author m with
                 | [] => js "Content Management System"
                 | a => a
                 end);
   (js "date", publishedDate m)].

Definition htmlMetadataOf (m : ContentMetadata) (html : jsstring) : HTMLMetadata :=
  {| base := m; format := js "html";
     hasEmbeddedCSS := includes (js "<style>") html;
     isResponsive := includes (js "viewport") (toLowerCase html) |}.

(** [HTMLPublisherAgent.publish(markdownContent, metadata, outputDir)] *)
Definition htmlPublish (markdownContent : jsstring) (m : ContentMetadata)
           (outputDir : jsstring) : M HTMLPublisherOutput :=
  let* response := invoke HTML (htmlPromptVars markdownContent m) in
  let html := cleanHTML response in
  let fileName := slug m ++ js ".html" in
  let* _ := log (Mkdir outputDir) in
  let filePath := path_join outputDir fileName in
  let* _ := log (WriteFile filePath html) in
  ret {| htmlContent := html; filePath := filePath; fileName := fileName;
         htmlMetadata := htmlMetadataOf m html; htmlStatus := js "published" |}.

(** [HTMLPublisherAgent.publishWithoutSaving(markdownContent, metadata)] *)
Definition publishWithoutSaving (markdownContent : jsstring) (m : ContentMetadata)
  : M HTMLPublisherOutput :=
  let* response := invoke HTML (htmlPromptVars markdownContent m) in
  let html := cleanHTML response in
  ret {| htmlContent := html; filePath := []; fileName := slug m ++ js ".html";
         htmlMetadata := htmlMetadataOf m html; htmlStatus := js "published" |}.

(** [HTMLPublisherAgent.createIndexPage(articles, outputDir)]: the page
    is the fixed template filled with the articles. *)
Definition createIndexPage (articles : list (HTMLMetadata * jsstring))
           (outputDir : jsstring) : M jsstring :=
  let indexPath := path_join outputDir (js "index.html") in
  let* _ := log (WriteIndexPage indexPath
         (map (fun a => {| entryTitle := title (base (fst a));
                           entryFile := snd a;
                           entryWords := wordCount (base (fst a)) |}) articles)) in
  ret indexPath.
End WithPlatform.

End Agents.

(* ================================================================== *)
(** * EnhancedContentWorkflow *)
(* ================================================================== *)

Module Workflow.
Import JsString Runtime Agents.

Record RunOptions := {
  publishHTML : option bool;
  outputDir : option jsstring;
  saveFiles : option bool
}.

Record RunResult := {
  markdown : PublisherOutput;
  html : option HTMLPublisherOutput
}.

(** [emitProgress(agent, status, output?, message?)] *)
Definition emitProgress (agent status : jsstring) (output message : option jsstring)
  : M unit :=
  let* set := getGlobalEmitter in
  if set : bool then
    emit (js "agent-progress")
         {| agent := agent; status := status; output := output; pmessage := message |}
  else ret tt.

Section WithPlatform.
Context `{Platform}.

(** [EnhancedContentWorkflow.run(topic, options)] *)
Definition run (topic : jsstring) (options : RunOptions) : M RunResult :=
  let publishHTML := default true (publishHTML options) in
  let outputDir := default (js "output") (outputDir options) in
  let saveFiles := default true (saveFiles options) in
  (* Research Phase *)
  let* _ := emitProgress (js "research") (js "pending") None
              (Some ([55357; 56589] ++ js " Starting research phase...")) in
  let* _ := emitProgress (js "research") (js "active")
              (Some (js "Analyzing topic and gathering information...")) None in
  let* researchOutput := researchRun topic in
  let* _ := emitProgress (js "research") (js "completed")
              (Some (js "Research completed: " ++ decimal (length researchOutput)
                     ++ js " chars of data collected")) None in
  (* Writing Phase *)
  let* _ := emitProgress (js "writer") (js "pending") None
              (Some ([9997; 65039] ++ js " Starting writing phase...")) in
  let* _ := emitProgress (js "writer") (js "active")
              (Some (js "Creating initial draft based on research...")) None in
  let* draftContent := writerRun topic researchOutput in
  let* _ := emitProgress (js "writer") (js "completed")
              (Some (js "Draft completed: " ++ decimal (length draftContent)
                     ++ js " chars written")) None in
  (* Editing Phase *)
  let* _ := emitProgress (js "editor") (js "pending") None
              (Some ([55357; 56541] ++ js " Starting editing phase...")) in
  let* _ := emitProgress (js "editor") (js "active")
              (Some (js "Reviewing and refining content...")) None in
  let* editedContent := editorRun draftContent in
  let* _ := emitProgress (js "editor") (js "completed")
              (Some (js "Editing completed: Content refined and improved")) None in
  (* SEO Optimization Phase *)
  let* _ := emitProgress (js "seo") (js "pending") None
              (Some ([55357; 56590] ++ js " Starting SEO optimization...")) in
  let* _ := emitProgress (js "seo") (js "active")
              (Some (js "Optimizing for search engines...")) None in
  let* seoResult := optimize editedContent topic in
  let* _ := emitProgress (js "seo") (js "completed")
              (Some (js "SEO completed: " ++ decimal (length (seoKeywords seoResult))
                     ++ js " keywords, slug: " ++ seoSlug seoResult)) None in
  (* Publishing Phase (Markdown) *)
  let* _ := emitProgress (js "publisher") (js "pending") None
              (Some ([55357; 56548] ++ js " Publishing markdown...")) in
  let* _ := emitProgress (js "publisher") (js "active")
              (Some (js "Formatting and preparing markdown...")) None in
  let* markdownOutput :=
    publish (optimizedContent seoResult) topic (seoMetaDescription seoResult)
            (seoKeywords seoResult) (seoSlug seoResult) in
  let* _ :=
    if saveFiles then
      let* markdownFilename := saveToFile markdownOutput (js "output") in
      emitProgress (js "publisher") (js "completed")
        (Some (js "Markdown published: " ++ markdownFilename)) None
    else
      emitProgress (js "publisher") (js "completed")
        (Some (js "Markdown generated successfully")) None in
  (* HTML Publishing Phase (if enabled) *)
  let* htmlOutput :=
    if publishHTML then
      let* _ := emitProgress (js "html") (js "pending") None
                  (Some ([55356; 57104] ++ js " Publishing HTML...")) in
      let* _ := emitProgress (js "html") (js "active")
                  (Some (js "Converting to HTML and styling...")) None in
      if saveFiles then
        let* out := htmlPublish (formattedContent markdownOutput)
                      (metadata markdownOutput) (outputDir ++ js "/html") in
        let* _ := emitProgress (js "html") (js "completed")
                    (Some (js "HTML published: " ++ filePath out)) None in
        ret (Some out)
      else
        let* out := publishWithoutSaving (formattedContent markdownOutput)
                      (metadata markdownOutput) in
        let* _ := emitProgress (js "html") (js "completed")
                    (Some (js "HTML generated successfully")) None in
        ret (Some out)
    else ret None in
  ret {| markdown := markdownOutput; html := htmlOutput |}.





End WithPlatform.

End Workflow.

(* ================================================================== *)
(** * The serverless handler (src/lambda/workflow.ts) *)
(* ================================================================== *)

Module Lambda.
Import JsString Runtime Agents Workflow.

(** [event.body]: a text, kept as what [JSON.parse] makes of it. *)
Inductive BodyText := Unparsable | Parses (j : json).

(** The two kinds of events [isAPIGatewayEvent] tells apart; [body] is
    [None] for a missing or empty body. *)
Inductive LambdaEvent :=
| Direct (topic : option jsstring) (publishHTML : option bool)
         (outputDir : option jsstring)
| ApiGateway (httpMethod path : jsstring) (body : option BodyText).

Inductive ResponseBody := EmptyBody | JsonBody (j : json).

Record Response := {
  statusCode : nat;
  headers : list (jsstring * jsstring);
  body : ResponseBody
}.

(** A direct invocation is answered with a plain object. *)
Inductive HandlerResult := Plain (j : json) | Http (r : Response).

Definition CORS_HEADERS : list (jsstring * jsstring) :=
  [(js "Access-Control-Allow-Origin", js "*");
   (js "Access-Control-Allow-Headers", js "Content-Type,Authorization,X-Requested-With");
   (js "Access-Control-Allow-Methods", js "GET,POST,OPTIONS,PUT,DELETE");
   (js "Access-Control-Allow-Credentials", js "true")].

Definition createJSONResponse (statusCode : nat) (body : json) : Response :=
  {| statusCode := statusCode;
     headers := (js "Content-Type", js "application/json") :: CORS_HEADERS;
     body := JsonBody body |}.

(** ** The JSON of the results *)

Definition metadataJson (m : ContentMetadata) : list (jsstring * json) :=
  [(js "title", JStr (title m)); (js "slug", JStr (slug m));
   (js "metaDescription", JStr (metaDescription m));
   (js "keywords", JArr (map JStr (keywords m)));
   (js "publishedDate", JStr (publishedDate m));
   (js "status", JStr (mstatus m));
   (js "wordCount", JNum (Z.of_nat (wordCount m)));
   (js "readingTime", JNum (Z.of_nat (readingTime m)));
   (js "author", JStr (author m))].

Definition markdownJson (p : PublisherOutput) : json :=
  JObj [(js "content", JStr (formattedContent p));
        (js "metadata", JObj (metadataJson (metadata p)))].

Definition htmlJson (h : option HTMLPublisherOutput) : json :=
  match h with
  | Some h =>
      JObj [(js "content", JStr (htmlContent h));
            (js "metadata",
             JObj (metadataJson (base (htmlMetadata h))
                   ++ [(js "format", JStr (format (htmlMetadata h)));
                       (js "hasEmbeddedCSS", JBool (hasEmbeddedCSS (htmlMetadata h)));
                       (js "isResponsive", JBool (isResponsive (htmlMetadata h)))]))]
  | None => JNull
  end.

Definition optField (k : jsstring) (v : option jsstring) : list (jsstring * json) :=
  match v with
  | Some s => [(k, JStr s)]
  | None => []
  end.

Definition progressEventJson (tag : jsstring) (ev : ProgressEvent) : json :=
  JObj [(js "type", JStr tag);
        (js "data",
         JObj ([(js "agent", JStr (agent ev)); (js "status", JStr (status ev))]
               ++ optField (js "output") (output ev)
               ++ optField (js "message") (pmessage ev)))].

(** The content of the [progressEvents] array [s]: what its listeners
    pushed. *)
Definition pushedTo (s : nat) (t : list Obs) : list json :=
  omap (fun o => match o with
                 | Deliver s' tag ev =>
                     if decide (s' = s) then Some (progressEventJson tag ev) else None
                 | _ => None
                 end) t.

Definition progressEventsOf (s : nat) : M json :=
  let* t := getTrace in ret (JArr (pushedTo s t)).

Definition agentListener (s : nat) : Listener :=
  {| event := js "agent-progress"; sink := s; tag := js "agent-progress" |}.
Definition statusListener (s : nat) : Listener :=
  {| event := js "status-update"; sink := s; tag := js "status-update" |}.

Definition typeError (msg : string) : JsError :=
  {| name := js "TypeError"; message := js msg |}.
Definition syntaxError : JsError :=
  {| name := js "SyntaxError"; message := js "Unexpected token in JSON" |}.

(** [const body = JSON.parse(event.body || '{}'); const { topic } = body;] *)
Definition readTopic (body : option BodyText) : M (option json) :=
  match body with
  | None => ret None
  | Some Unparsable => throw syntaxError
  | Some (Parses JNull) =>
      throw (typeError "Cannot destructure property 'topic' of 'body' as it is null.")
  | Some (Parses j) => ret (getField (js "topic") j)
  end.

(** [!topic || topic.trim() === ''] on a property of a JSON value:
    [None] when the test holds, the topic when it does not; a value that
    is neither falsy nor a string has no [trim]. *)
Definition requireTopic (topic : option json) : M (option jsstring) :=
  match topic with
  | None | Some JNull | Some (JBool false) | Some (JNum 0%Z) => ret None
  | Some (JStr s) => ret (match trim s with [] => None | _ => Some s end)
  | Some _ => throw (typeError "topic.trim is not a function")
  end.

Definition topicRequired : json :=
  JObj [(js "success", JBool false); (js "error", JStr (js "Topic is required"))].

Definition jobNotFound : json :=
  JObj [(js "success", JBool false); (js "error", JStr (js "Job not found"))].

(** [error.message || fallback] *)
Definition messageOr (error : JsError) (fallback : string) : jsstring :=
  match message error with
  | [] => js fallback
  | m => m
  end.

Definition jobKey (jobId : jsstring) : jsstring := js "jobs/" ++ jobId ++ js ".json".

(** [/^\/api\/status\/[\w-]+$/] *)
Definition isWordOrHyphen (c : N) : bool :=
  ((97 <=? c) && (c <=? 122)) || ((65 <=? c) && (c <=? 90))
  || ((48 <=? c) && (c <=? 57)) || (c =? 95) || (c =? 45).

Definition matchesStatusRoute (path : jsstring) : bool :=
  startsWith (js "/api/status/") path
  && match drop 12 path with
     | [] => false
     | rest => forallb isWordOrHyphen rest
     end.

(** [path.split('/').pop()] *)
Definition lastSegment (path : jsstring) : jsstring :=
  default [] (last (splitAt (fun c => c =? 47) [] path)).

(** [runWorkflowAsync(jobId, topic).catch(...)] is started and not
    awaited: the call is recorded and settles when it is resumed. *)
Definition spawn (jobId topic : jsstring) : M unit :=
  let* p := getPending in setPending (p ++ [(jobId, topic)]).

Section WithPlatform.
Context `{Platform}.

(** The body shared by the direct invocation and the synchronous
    route: the workflow is run with an array collecting its progress
    events. *)
Definition runCollecting (topic : jsstring) (options : RunOptions)
  : M (list (jsstring * json)) :=
  let* s := newSink in
  let* _ := on (agentListener s) in
  let* _ := on (statusListener s) in
  let* result := run topic options in
  let* _ := off (agentListener s) in
  let* _ := off (statusListener s) in
  let* progressEvents := progressEventsOf s in
  let* generatedAt := now in
  ret [(js "success", JBool true); (js "topic", JStr topic);
       (js "markdown", markdownJson (markdown result));
       (js "html", htmlJson (html result));
       (js "progressEvents", progressEvents);
       (js "generatedAt", JStr generatedAt)].

Definition workflowFailed (error : JsError) : json :=
  JObj [(js "success", JBool false);
        (js "error", JStr (messageOr error "An error occurred during workflow execution"))].

(** [runWorkflowAsync(jobId, topic)] *)
Definition runWorkflowAsync (jobId topic : jsstring) : M unit :=
  tryCatch
    (let* s := newSink in
     let* _ := on (agentListener s) in
     let* _ := on (statusListener s) in
     let* result := run topic {| publishHTML := Some true;
                                 outputDir := Some (js "output");
                                 saveFiles := Some false |} in
     let* _ := off (agentListener s) in
     let* _ := off (statusListener s) in
     let* startedAt := now in
     let* completedAt := now in
     let* progressEvents := progressEventsOf s in
     s3Put (jobKey jobId)
       (JObj [(js "jobId", JStr jobId); (js "topic", JStr topic);
              (js "status", JStr (js "completed")); (js "success", JBool true);
              (js "startedAt", JStr startedAt);
              (js "completedAt", JStr completedAt);
              (js "markdown", markdownJson (markdown result));
              (js "html", htmlJson (html result));
              (js "progressEvents", progressEvents)]))
    (fun error =>
       let* failedAt := now in
       s3Put (jobKey jobId)
         (JObj [(js "jobId", JStr jobId); (js "topic", JStr topic);
                (js "status", JStr (js "failed")); (js "success", JBool false);
                (js "error", JStr (message error));
                (js "failedAt", JStr failedAt)])).

(** The route [POST /api/workflow] *)
Definition postWorkflow (body : option BodyText) : M Response :=
  tryCatch
    (let* topic := readTopic body in
     let* checked := requireTopic topic in
     match checked with
     | None => ret (createJSONResponse 400 topicRequired)
     | Some topic =>
         let* jobId := drawUUID in
         let* startedAt := now in
         let* _ := s3Put (jobKey jobId)
                     (JObj [(js "jobId", JStr jobId); (js "topic", JStr topic);
                            (js "status", JStr (js "processing"));
                            (js "startedAt", JStr startedAt)]) in
         let* _ := spawn jobId topic in
         ret (createJSONResponse 202
                (JObj [(js "success", JBool true); (js "jobId", JStr jobId);
                       (js "status", JStr (js "processing"));
                       (js "message",
                        JStr (js "Workflow started. Use /api/status/{jobId} to check progress."));
                       (js "estimatedTime", JStr (js "2-5 minutes"))]))
     end)
    (fun error =>
       ret (createJSONResponse 500
              (JObj [(js "success", JBool false);
                     (js "error", JStr (messageOr error "An error occurred"))]))).

(** The route [GET /api/status/{jobId}] *)
Definition getStatus (path : jsstring) : M Response :=
  tryCatch
    (let jobId := lastSegment path in
     let* statusData := s3Get (jobKey jobId) in
     ret (createJSONResponse 200 statusData))
    (fun error =>
       if decide (name error = js "NoSuchKey") then
         ret (createJSONResponse 404 jobNotFound)
       else
         ret (createJSONResponse 500
                (JObj [(js "success", JBool false);
                       (js "error", JStr (messageOr error "An error occurred"))]))).

(** The route [POST /api/workflow-sync] *)
Definition postWorkflowSync (body : option BodyText) : M Response :=
  tryCatch
    (let* topic := readTopic body in
     let* checked := requireTopic topic in
     match checked with
     | None => ret (createJSONResponse 400 topicRequired)
     | Some topic =>
         let* fields := runCollecting topic
                          {| publishHTML := Some true;
                             outputDir := Some (js "output");
                             saveFiles := Some false |} in
         ret (createJSONResponse 200 (JObj fields))
     end)
    (fun error => ret (createJSONResponse 500 (workflowFailed error))).

(** [handler(event)]; [details] is left out of the error bodies, as it
    is outside of development mode. *)
Definition handler (event : LambdaEvent) : M HandlerResult :=
  match event with
  | Direct topic publishHTML outputDir =>
      match topic with
      | Some ((_ :: _) as topic) =>
          match trim topic with
          | [] => ret (Plain topicRequired)
          | _ =>
              tryCatch
                (let* fields := runCollecting topic
                                  {| Workflow.publishHTML := Some (default true publishHTML);
                                     Workflow.outputDir := Some (default (js "output") outputDir);
                                     saveFiles := Some false |} in
                 ret (Plain (JObj fields)))
                (fun error => ret (Plain (workflowFailed error)))
          end
      | _ => ret (Plain topicRequired)
      end
  | ApiGateway httpMethod path body =>
      if decide (httpMethod = js "OPTIONS") then
        ret (Http {| statusCode := 200; headers := CORS_HEADERS; body := EmptyBody |})
      else if decide (path = js "/health" /\ httpMethod = js "GET") then
        let* timestamp := now in
        ret (Http (createJSONResponse 200
                     (JObj [(js "status", JStr (js "ok"));
                            (js "message", JStr (js "Lambda function is running"));
                            (js "timestamp", JStr timestamp)])))
      else if decide (path = js "/api/workflow" /\ httpMethod = js "POST") then
        let* r := postWorkflow body in ret (Http r)
      else if matchesStatusRoute path && bool_decide (httpMethod = js "GET") then
        let* r := getStatus path in ret (Http r)
      else if decide (path = js "/api/workflow-sync" /\ httpMethod = js "POST") then
        let* r := postWorkflowSync body in ret (Http r)
      else
        ret (Http (createJSONResponse 404
                     (JObj [(js "success", JBool false);
                            (js "error", JStr (js "Not Found"));
                            (js "path", JStr path)])))
  end.

(** ** The process over time

    The function is invoked with events; between two invocations a
    call of [runWorkflowAsync] that was started may settle. *)
Inductive Action :=
| Invoke (event : LambdaEvent)
| Settle (i : nat).

Definition settle (i : nat) : M unit :=
  let* p := getPending in
  match p !! i with
  | Some (jobId, topic) =>
      let* _ := setPending (delete i p) in
      runWorkflowAsync jobId topic
  | None => ret tt
  end.

Definition perform (a : Action) (w : World) : World :=
  match a with
  | Invoke event => snd (handler event w)
  | Settle i => snd (settle i w)
  end.

Definition exec (actions : list Action) (w : World) : World :=
  fold_left (fun w a => perform a w) actions w.
End WithPlatform.

End Lambda.

(* ================================================================== *)
(** * The web server's POST /api/workflow (the Express application) *)
(* ================================================================== *)

Module Express.
Import JsString Runtime Lambda.

Record Reply := { status : nat; payload : json }.

(** [app.post('/api/workflow', ...)]; [body] is [req.body]. *)
Definition postWorkflow (body : json) : M Reply :=
  let* topic := match body with
                | JNull => throw (typeError "Cannot destructure property 'topic' of 'req.body' as it is null.")
                | _ => ret (getField (js "topic") body)
                end in
  let* checked := requireTopic topic in
  match checked with
  | None =>
      ret {| status := 400;
             payload := JObj [(js "error", JStr (js "Topic is required"))] |}
  | Some topic =>
      ret {| status := 200;
             payload := JObj [(js "message", JStr (js "Workflow started"));
                              (js "topic", JStr topic)] |}
  end.

End Express.

(* ================================================================== *)
(** * What is observed of a run *)
(* ================================================================== *)

Module Observed.
Import JsString Runtime Agents Workflow.

(** The requests sent to the chat-completion API. *)
Definition llmCalls (t : list Obs) : list (Stage * list (jsstring * jsstring)) :=
  omap (fun o => match o with
                 | LLMCall stage vars => Some (stage, vars)
                 | _ => None
                 end) t.

(** The progress events handed to the emitter. *)
Definition emitted (t : list Obs) : list ProgressEvent :=
  omap (fun o => match o with
                 | Emit _ ev => Some ev
                 | _ => None
                 end) t.





(** The body of every S3 write to [key]. *)
Definition writesTo (key : jsstring) (t : list Obs) : list json :=
  omap (fun o => match o with
                 | S3Put k body => if decide (k = key) then Some body else None
                 | _ => None
                 end) t.

Definition statusOf (record : json) : option json := getField (js "status") record.





(** A topic that is empty or made of white space only. *)
Definition blank (topic : jsstring) : Prop := trim topic = [].

(** A [topic] property that is missing, or a string that is empty or
    white space only. *)
Definition missingOrBlank (topic : option json) : Prop :=
  topic = None \/ exists s, topic = Some (JStr s) /\ blank s.

(** The records of a job. *)
Definition processing (record : json) : Prop :=
  statusOf record = Some (JStr (js "processing")).

Definition terminal (record : json) : Prop :=
  statusOf record = Some (JStr (js "completed"))
  \/ statusOf record = Some (JStr (js "failed")).

(** Between [w] and [w'] exactly one object was written: [record], under
    [key]. *)
Definition wrote (key : jsstring) (record : json) (w w' : World) : Prop :=
  bucket w' = <[key := record]> (bucket w)
  /\ forall k, writesTo k (trace w')
               = writesTo k (trace w) ++ (if decide (k = key) then [record] else []).

(** A job was created: an identifier was drawn, a [processing] record
    written under its key and its run started. *)
Definition created `{Platform} (w w' : World) : Prop :=
  exists topic r0,
    processing r0
    /\ wrote (Lambda.jobKey (randomUUID (uuidsDrawn w))) r0 w w'
    /\ uuidsDrawn w' = S (uuidsDrawn w)
    /\ pending w' = pending w ++ [(randomUUID (uuidsDrawn w), topic)].

(** The [i]-th started run settled: a terminal record was written under
    the key of its job. *)
Definition settledAs (i : nat) (w w' : World) : Prop :=
  exists jobId topic r1,
    pending w !! i = Some (jobId, topic)
    /\ terminal r1
    /\ wrote (Lambda.jobKey jobId) r1 w w'
    /\ uuidsDrawn w' = uuidsDrawn w
    /\ pending w' = delete i (pending w).

(** Where a job stands, read off the writes to its key: never created;
    created and its run still pending; or settled by one terminal
    record, which is what the bucket holds. *)
Definition jobState (jobId : jsstring) (w : World) : Prop :=
  match writesTo (Lambda.jobKey jobId) (trace w) with
  | [] =>
      bucket w !! Lambda.jobKey jobId = None /\ jobId ∉ (pending w).*1
  | [r0] =>
      processing r0 /\ bucket w !! Lambda.jobKey jobId = Some r0
      /\ jobId ∈ (pending w).*1
  | [r0; r1] =>
      processing r0 /\ terminal r1 /\ bucket w !! Lambda.jobKey jobId = Some r1
      /\ jobId ∉ (pending w).*1
  | _ => False
  end.

(** What holds of the jobs at every moment: each is in one of its
    states, no job has two pending runs, and every job that was written
    or is pending bears an identifier drawn so far. *)
Definition jobsKnown `{Platform} (w : World) : Prop :=
  (forall jobId, jobState jobId w)
  /\ NoDup (pending w).*1
  /\ (forall jobId,
        jobId ∈ (pending w).*1 \/ writesTo (Lambda.jobKey jobId) (trace w) <> [] ->
        exists n, (n < uuidsDrawn w)%nat /\ jobId = randomUUID n).

(** A process that has just started, with an empty bucket. *)
Definition freshProcess (w : World) : Prop :=
  trace w = [] /\ pending w = [] /\ bucket w = ∅ /\ uuidsDrawn w = O.

(** The observations of one [emit]: the event and its deliveries. *)
Definition emission (name : jsstring) (ev : ProgressEvent) (ls : list Listener) : list Obs :=
  Emit name ev :: map (fun l => Deliver (sink l) (tag l) ev) ls.

(** Every run of [c] takes a world to one related to it by [I]. *)
Definition Keeps (I : World -> World -> Prop) {A} (c : M A) : Prop :=
  forall w, I w (snd (c w)).


(** Relations between the world before and the world after. *)

(** Requests were only added. *)
Definition moreCalls (w w' : World) : Prop :=
  exists more, llmCalls (trace w') = llmCalls (trace w) ++ more.


(** The bucket, the started calls and the identifiers drawn are as they
    were, and nothing was written to the bucket. *)
Definition storeUntouched (w w' : World) : Prop :=
  bucket w' = bucket w /\ pending w' = pending w /\ uuidsDrawn w' = uuidsDrawn w
  /\ forall key, writesTo key (trace w') = writesTo key (trace w).







(** The value a computation returned, if it returned. *)
Definition valueOf {A} (o : Outcome A) : option A :=
  match o with
  | Returned a => Some a
  | Thrown _ => None
  end.

(** A host for the examples: lower-casing leaves code units outside ASCII
    alone, paths are joined with a slash, the clock shows its readings as
    numbers and the identifiers drawn are told apart by their length. *)
Definition exampleHost : Platform :=
  {| lowerOther := fun _ c _ => [c];
     path_join := fun a b => a ++ js "/" ++ b;
     isoString := fun n => js "T" ++ decimal n;
     randomUUID := fun n => js "job" ++ replicate n hyphen |}.

(** A world for the examples: the given replies are to come, the emitter
    is set or not, and nothing has happened yet. *)
Definition exampleWorld (replies : list (Outcome jsstring)) (emitterSet : bool) : World :=
  {| llm := replies; clock := O; uuidsDrawn := O; globalEmitter := emitterSet;
     listeners := []; sinks := O; pending := []; bucket := ∅; trace := [] |}.

(** Replies with which a run on any topic goes through. *)
Definition sixReplies : list jsstring :=
  [js "Research brief"; js "Draft"; js "Edited draft";
   js "[OPTIMIZED CONTENT] Qubits compute. [SLUG] quantum-computing";
   js "# Quantum Computing"; js "<html><body>Qubits</body></html>"].

Definition defaults : RunOptions :=
  {| publishHTML := None; outputDir := None; saveFiles := None |}.




Definition startJob : Lambda.Action :=
  Lambda.Invoke (Lambda.ApiGateway (js "POST") (js "/api/workflow")
            (Some (Lambda.Parses (JObj [(js "topic", JStr (js "Tides"))])))).

Definition chattyReplies : list jsstring :=
  [js "Research brief"; js "Draft"; js "Edited draft";
   js "[OPTIMIZED CONTENT] Qubits compute. [SLUG] quantum-computing";
   js "# Quantum Computing";
   js "Here is the page: <!DOCTYPE html><html><body>Qubits</body></html>"].

End Observed.
(* ================================================================== *)
(** * Facts about strings *)
(* ================================================================== *)

Module JsStringFacts.
Import JsString.

Lemma dropWhile_snoc p l c :
  dropWhile p (l ++ [c]) =
  match dropWhile p l with
  | [] => if p c then [] else [c]
  | r => r ++ [c]
  end.
Proof.
  induction l as [|a l IH]; simpl.
  - reflexivity.
  - destruct (p a); [exact IH | reflexivity].
Qed.

(** Dropping at the end, read from the front. *)
Lemma dropWhileEnd_cons p c s :
  dropWhileEnd p (c :: s) =
  match dropWhileEnd p s with
  | [] => if p c then [] else [c]
  | r => c :: r
  end.
Proof.
  unfold dropWhileEnd. simpl rev. rewrite dropWhile_snoc.
  destruct (dropWhile p (rev s)) as [|a r] eqn:E; simpl.
  - destruct (p c); reflexivity.
  - rewrite rev_app_distr. simpl.
    destruct (rev r ++ [a]) eqn:E'; [|reflexivity].
    destruct (rev r); discriminate.
Qed.

Lemma dropWhile_head p s c : head (dropWhile p s) = Some c -> p c = false.
Proof.
  induction s as [|a s IH]; simpl; [discriminate|].
  destruct (p a) eqn:E; [exact IH|].
  simpl. intros [= <-]. exact E.
Qed.

Lemma last_rev (l : jsstring) : last (rev l) = head l.
Proof. destruct l as [|a l]; [reflexivity|]. simpl. apply last_snoc. Qed.

Lemma dropWhileEnd_last p s c : last (dropWhileEnd p s) = Some c -> p c = false.
Proof.
  unfold dropWhileEnd. rewrite last_rev. apply dropWhile_head.
Qed.

Lemma dropWhileEnd_head p s c :
  head (dropWhileEnd p s) = Some c -> head s = Some c.
Proof.
  destruct s as [|a s]; [discriminate|].
  rewrite dropWhileEnd_cons.
  destruct (dropWhileEnd p s); [destruct (p a)|]; simpl; congruence.
Qed.

Lemma dropWhile_Forall (P : N -> Prop) p s : Forall P s -> Forall P (dropWhile p s).
Proof.
  induction 1 as [|a s Ha Hs IH]; simpl; [constructor|].
  destruct (p a); [exact IH | constructor; assumption].
Qed.

Lemma dropWhileEnd_Forall (P : N -> Prop) p s : Forall P s -> Forall P (dropWhileEnd p s).
Proof.
  induction 1 as [|a s Ha Hs IH]; [constructor|].
  rewrite dropWhileEnd_cons.
  destruct (dropWhileEnd p s);
    [destruct (p a); [constructor | constructor; [assumption | constructor]]
    | constructor; assumption].
Qed.

Lemma dropWhile_id p s :
  (forall c, head s = Some c -> p c = false) -> dropWhile p s = s.
Proof.
  destruct s as [|a s]; [reflexivity|].
  simpl. intros Hh. rewrite (Hh a eq_refl). reflexivity.
Qed.

Lemma dropWhileEnd_id p s :
  (forall c, last s = Some c -> p c = false) -> dropWhileEnd p s = s.
Proof.
  induction s as [|a s IH]; [reflexivity|].
  intros Hl. rewrite dropWhileEnd_cons.
  destruct s as [|b s].
  - simpl. rewrite (Hl a eq_refl). reflexivity.
  - rewrite IH; [reflexivity|].
    intros c Hc. apply Hl. exact Hc.
Qed.


End JsStringFacts.

Module SlugFacts.
Import JsString JsStringFacts Slug.

Lemma alnum_not_hyphen c : isLowerAlnum c = true -> isHyphen c = false.
Proof.
  unfold isLowerAlnum, isHyphen, hyphen. intros Hc.
  apply N.eqb_neq. intros ->. discriminate Hc.
Qed.

Lemma slugChar_hyphen : slugChar hyphen = true.
Proof. reflexivity. Qed.

Lemma slugChar_lower c : slugChar c = true -> (c <? 128) = true /\ lowerAscii c = c.
Proof.
  unfold slugChar, isLowerAlnum, isHyphen, lowerAscii, hyphen.
  intros Hc. split.
  - apply N.ltb_lt.
    repeat first [ apply orb_prop in Hc as [Hc|Hc] | apply andb_prop in Hc as [Hc Hc'] ];
      repeat match goal with
             | H : (_ <=? _) = true |- _ => apply N.leb_le in H
             | H : (_ =? _) = true |- _ => apply N.eqb_eq in H
             end; lia.
  - destruct ((65 <=? c) && (c <=? 90)) eqn:E; [|reflexivity].
    apply andb_prop in E as [E1 E2]. apply N.leb_le in E1, E2.
    repeat first [ apply orb_prop in Hc as [Hc|Hc] | apply andb_prop in Hc as [Hc Hc'] ];
      repeat match goal with
             | H : (_ <=? _) = true |- _ => apply N.leb_le in H
             | H : (_ =? _) = true |- _ => apply N.eqb_eq in H
             end; lia.
Qed.

(** ** The first replacement *)

Lemma replace_chars b s : Forall (fun c => slugChar c = true) (replaceNonAlnumRuns b s).
Proof.
  revert b. induction s as [|c s IH]; intros b; simpl; [constructor|].
  destruct (isLowerAlnum c) eqn:E.
  - constructor; [unfold slugChar; rewrite E; reflexivity | apply IH].
  - destruct b; [apply IH | constructor; [reflexivity | apply IH]].
Qed.

Lemma replace_head_in_run s c :
  head (replaceNonAlnumRuns true s) = Some c -> isHyphen c = false.
Proof.
  induction s as [|a s IH]; simpl; [discriminate|].
  destruct (isLowerAlnum a) eqn:E; [|exact IH].
  simpl. intros [= <-]. apply alnum_not_hyphen, E.
Qed.

Lemma noDouble_cons c s :
  (isHyphen c = true -> forall d, head s = Some d -> isHyphen d = false) ->
  noDoubleHyphen s = true -> noDoubleHyphen (c :: s) = true.
Proof.
  intros Hc Hs. destruct s as [|d s]; [reflexivity|].
  change (negb (isHyphen c && isHyphen d) && noDoubleHyphen (d :: s) = true).
  rewrite Hs, andb_true_r.
  destruct (isHyphen c) eqn:E; [|reflexivity].
  rewrite (Hc eq_refl d eq_refl). reflexivity.
Qed.

Lemma replace_noDouble b s : noDoubleHyphen (replaceNonAlnumRuns b s) = true.
Proof.
  revert b. induction s as [|c s IH]; intros b; [reflexivity|].
  simpl. destruct (isLowerAlnum c) eqn:E.
  - apply noDouble_cons; [|apply IH].
    rewrite (alnum_not_hyphen _ E). discriminate.
  - destruct b; [apply IH|].
    apply noDouble_cons; [|apply IH].
    intros _ d. apply replace_head_in_run.
Qed.

(** ** The second replacement keeps a slice of its argument *)

Lemma noDouble_tail c s : noDoubleHyphen (c :: s) = true -> noDoubleHyphen s = true.
Proof.
  destruct s as [|d s]; [reflexivity|].
  intros Hs. change (negb (isHyphen c && isHyphen d) && noDoubleHyphen (d :: s) = true) in Hs.
  apply andb_prop in Hs as [_ Hs]. exact Hs.
Qed.

Lemma noDouble_dropWhile p s : noDoubleHyphen s = true -> noDoubleHyphen (dropWhile p s) = true.
Proof.
  induction s as [|c s IH]; [reflexivity|].
  intros Hs. simpl. destruct (p c); [|exact Hs].
  apply IH. exact (noDouble_tail _ _ Hs).
Qed.

Lemma noDouble_dropWhileEnd p s :
  noDoubleHyphen s = true -> noDoubleHyphen (dropWhileEnd p s) = true.
Proof.
  induction s as [|c s IH]; [reflexivity|].
  intros Hs. rewrite dropWhileEnd_cons.
  pose proof (IH (noDouble_tail _ _ Hs)) as IH'.
  destruct (dropWhileEnd p s) as [|d r] eqn:E; [destruct (p c); reflexivity|].
  apply noDouble_cons; [|exact IH'].
  intros Hc d' [= <-].
  assert (Hd : head s = Some d).
  { apply (dropWhileEnd_head p). rewrite E. reflexivity. }
  destruct s as [|d0 s]; [discriminate|]. injection Hd as ->.
  change (negb (isHyphen c && isHyphen d) && noDoubleHyphen (d :: s) = true) in Hs.
  apply andb_prop in Hs as [Hs _]. rewrite Hc in Hs.
  destruct (isHyphen d); [discriminate | reflexivity].
Qed.

(** ** What a slug is, and that the steps of [createSlug] leave one alone *)

Lemma isHyphen_true c : isHyphen c = true <-> c = hyphen.
Proof. unfold isHyphen. apply N.eqb_eq. Qed.

Lemma stripHyphens_isSlug s :
  Forall (fun c => slugChar c = true) s -> noDoubleHyphen s = true ->
  isSlug (stripHyphens s).
Proof.
  intros Hc Hd. unfold stripHyphens. split.
  - apply dropWhileEnd_Forall, dropWhile_Forall, Hc.
  - intros Hh. apply dropWhileEnd_head, dropWhile_head in Hh. discriminate Hh.
  - intros Hl. apply dropWhileEnd_last in Hl. discriminate Hl.
  - apply noDouble_dropWhileEnd, noDouble_dropWhile, Hd.
Qed.

Section WithPlatform.
Context `{Platform}.

Lemma lowerFrom_slugChars before u :
  Forall (fun c => slugChar c = true) u -> lowerFrom before u = u.
Proof.
  intros Hu. revert before.
  induction Hu as [|c u Hc Hu IH]; intros before; [reflexivity|].
  simpl. destruct (slugChar_lower c Hc) as [-> ->].
  simpl. rewrite IH. reflexivity.
Qed.

Lemma replace_slug b u :
  Forall (fun c => slugChar c = true) u -> noDoubleHyphen u = true ->
  (b = true -> head u <> Some hyphen) ->
  replaceNonAlnumRuns b u = u.
Proof.
  intros Hu. revert b.
  induction Hu as [|c u Hc Hu IH]; intros b Hd Hb; [reflexivity|].
  simpl. destruct (isLowerAlnum c) eqn:E.
  - rewrite IH; [reflexivity | exact (noDouble_tail _ _ Hd) | discriminate].
  - assert (Hh : c = hyphen).
    { unfold slugChar in Hc. rewrite E in Hc. apply isHyphen_true, Hc. }
    subst c. destruct b; [exfalso; apply Hb; reflexivity|].
    rewrite IH; [reflexivity | exact (noDouble_tail _ _ Hd) |].
    intros _ Hh. destruct u as [|d u]; [discriminate|].
    injection Hh as ->. discriminate Hd.
Qed.

Lemma createSlug_isSlug s : isSlug (createSlug s).
Proof.
  unfold createSlug. apply stripHyphens_isSlug;
    [apply replace_chars | apply replace_noDouble].
Qed.

Lemma createSlug_fixes_slugs u : isSlug u -> createSlug u = u.
Proof.
  intros [Hc Hh Hl Hd]. unfold createSlug, toLowerCase.
  rewrite lowerFrom_slugChars by exact Hc.
  rewrite replace_slug; [| exact Hc | exact Hd | discriminate].
  unfold stripHyphens.
  rewrite dropWhile_id.
  - apply dropWhileEnd_id. intros c Hc'.
    destruct (isHyphen c) eqn:E; [|reflexivity].
    apply isHyphen_true in E. subst c. contradiction.
  - intros c Hc'.
    destruct (isHyphen c) eqn:E; [|reflexivity].
    apply isHyphen_true in E. subst c. contradiction.
Qed.

(** C10: for every string, [createSlug] yields only lowercase ASCII
    letters, digits and hyphens, with no hyphen at the start or at the
    end and no two hyphens in a row (the result may be empty), and
    applying [createSlug] to its own result changes nothing. *)
Theorem createSlug_shape_idempotent (s : jsstring) :
  Forall (fun c => isLowerAlnum c || isHyphen c = true) (createSlug s)
  /\ head (createSlug s) <> Some hyphen
  /\ last (createSlug s) <> Some hyphen
  /\ noDoubleHyphen (createSlug s) = true
  /\ createSlug (createSlug s) = createSlug s.
Proof.
  pose proof (createSlug_isSlug s) as Hs.
  destruct Hs as [Hc Hh Hl Hd].
  repeat split; try assumption.
  apply createSlug_fixes_slugs. split; assumption.
Qed.
End WithPlatform.

End SlugFacts.
(* ================================================================== *)
(** * Reasoning along the binds of a computation *)
(* ================================================================== *)

Module Steps.
Import JsString Runtime Observed.

(** ** What every step of a computation keeps *)
Section Keeps.
Variable I : World -> World -> Prop.
Hypothesis I_refl : forall w, I w w.
Hypothesis I_trans : forall w1 w2 w3, I w1 w2 -> I w2 w3 -> I w1 w3.

Lemma Keeps_ret {A} (a : A) : Keeps I (ret a).
Proof. intros w. apply I_refl. Qed.

Lemma Keeps_throw {A} e : Keeps I (@throw A e).
Proof. intros w. apply I_refl. Qed.

Lemma Keeps_bind {A B} (c : M A) (k : A -> M B) :
  Keeps I c -> (forall a, Keeps I (k a)) -> Keeps I (bind c k).
Proof.
  intros Hc Hk w. unfold bind. specialize (Hc w).
  destruct (c w) as [[a|e] w']; cbn [snd] in *.
  - eapply I_trans; [exact Hc | apply Hk].
  - exact Hc.
Qed.

Lemma Keeps_tryCatch {A} (c : M A) (h : JsError -> M A) :
  Keeps I c -> (forall e, Keeps I (h e)) -> Keeps I (tryCatch c h).
Proof.
  intros Hc Hh w. unfold tryCatch. specialize (Hc w).
  destruct (c w) as [[a|e] w']; cbn [snd] in *.
  - exact Hc.
  - eapply I_trans; [exact Hc | apply Hh].
Qed.
End Keeps.

(** ** Two computations that go the same way in related worlds *)
Section Alike.
Variable R : World -> World -> Prop.



End Alike.

End Steps.
(* ================================================================== *)
(** * Facts about what is observed *)
(* ================================================================== *)

Module ObservedFacts.
Import JsString Runtime Agents Workflow Observed.

Lemma llmCalls_app a b : llmCalls (a ++ b) = llmCalls a ++ llmCalls b.
Proof. apply omap_app. Qed.




Lemma writesTo_app key a b : writesTo key (a ++ b) = writesTo key a ++ writesTo key b.
Proof. apply omap_app. Qed.

Lemma llmCalls_deliveries ev (ls : list Listener) :
  llmCalls (map (fun l => Deliver (sink l) (tag l) ev) ls) = [].
Proof. induction ls as [|l ls IH]; [reflexivity | exact IH]. Qed.



Lemma writesTo_deliveries key ev (ls : list Listener) :
  writesTo key (map (fun l => Deliver (sink l) (tag l) ev) ls) = [].
Proof. induction ls as [|l ls IH]; [reflexivity | exact IH]. Qed.

Lemma llmCalls_emit name ev (ls : list Listener) :
  llmCalls (Emit name ev :: map (fun l => Deliver (sink l) (tag l) ev) ls) = [].
Proof. apply llmCalls_deliveries. Qed.



Lemma writesTo_emit key name ev (ls : list Listener) :
  writesTo key (Emit name ev :: map (fun l => Deliver (sink l) (tag l) ev) ls) = [].
Proof. apply writesTo_deliveries. Qed.

End ObservedFacts.

(* ================================================================== *)
(** * Going through the workflow *)
(* ================================================================== *)

Module Walk.
Import JsString Runtime Agents Workflow Observed ObservedFacts Steps.

(** The relations between before and after are preorders. *)
Lemma moreCalls_refl w : moreCalls w w.
Proof. exists []. symmetry. apply app_nil_r. Qed.

Lemma moreCalls_trans w1 w2 w3 : moreCalls w1 w2 -> moreCalls w2 w3 -> moreCalls w1 w3.
Proof.
  intros [m1 H1] [m2 H2]. exists (m1 ++ m2).
  rewrite H2, H1. symmetry. apply app_assoc.
Qed.



Lemma storeUntouched_refl w : storeUntouched w w.
Proof. repeat split. Qed.

Lemma storeUntouched_trans w1 w2 w3 :
  storeUntouched w1 w2 -> storeUntouched w2 w3 -> storeUntouched w1 w3.
Proof.
  intros (Hb & Hp & Hu & Hw) (Hb' & Hp' & Hu' & Hw').
  split; [congruence | split; [congruence | split; [congruence|]]].
  intros key. rewrite Hw', Hw. reflexivity.
Qed.

(** Unfolds the agents and the workflow down to [emitProgress] and the
    operations of the runtime. *)
Ltac expose :=
  cbv beta zeta delta
    [run log researchRun writerRun editorRun optimize publish
     saveToFile htmlPublish publishWithoutSaving createIndexPage on off].

(** Goes through a computation bind by bind; [prim] settles
    [emitProgress] and the operations of the runtime. *)
Ltac walk I_refl I_trans prim :=
  repeat first
    [ match goal with |- Keeps _ (emitProgress _ _ _ _) => prim end
    | apply (Keeps_bind _ I_trans); [|intros ?]
    | apply (Keeps_tryCatch _ I_trans); [|intros ?]
    | apply (Keeps_ret _ I_refl)
    | apply (Keeps_throw _ I_refl)
    | match goal with
      | |- Keeps _ (if ?b then _ else _) => destruct b
      | |- Keeps _ (match ?x with _ => _ end) => destruct x
      end
    | prim ].

(** An operation, run in a world taken apart. *)
Ltac operate :=
  let w := fresh "w" in
  intros w; destruct w as [l c u ge ls sk pd bk tr];
  cbv beta iota zeta delta
    [emitProgress emit bind ret
     logAll invoke now drawUUID getGlobalEmitter getListeners setListeners
     setGlobalEmitter newSink setPending getPending getTrace s3Put snd
     llm clock uuidsDrawn globalEmitter listeners sinks pending bucket trace];
  try match goal with
      | |- context [match ?x with [] => _ | _ :: _ => _ end] =>
          destruct x as [|[?|?] ?]
      | |- context [if ?b then _ else _] => destruct b
      end;
  cbv beta iota delta [snd].

Ltac moreCalls_prim :=
  operate; unfold moreCalls; cbv beta iota delta [trace];
  first [ eexists; symmetry; apply app_nil_r
        | eexists; apply llmCalls_app ].


Ltac storeUntouched_prim :=
  operate; unfold storeUntouched;
  cbv beta iota delta [trace bucket pending uuidsDrawn];
  (split; [reflexivity | split; [reflexivity | split; [reflexivity|]]]);
  let key := fresh "key" in
  intros key;
  first [ reflexivity
        | rewrite writesTo_app, writesTo_emit; apply app_nil_r
        | rewrite writesTo_app; cbn; apply app_nil_r ].






Section WithPlatform.
Context `{Platform}.

Lemma run_moreCalls topic options : Keeps moreCalls (run topic options).
Proof. expose. walk moreCalls_refl moreCalls_trans moreCalls_prim. Qed.


Lemma run_storeUntouched topic options : Keeps storeUntouched (run topic options).
Proof. expose. walk storeUntouched_refl storeUntouched_trans storeUntouched_prim. Qed.


End WithPlatform.
End Walk.
(* ================================================================== *)
(** * EnhancedContentWorkflow.run *)
(* ================================================================== *)

Module WorkflowFacts.
Import JsString Runtime Agents Workflow Observed ObservedFacts Steps Walk.






Section WithPlatform.
Context `{Platform}.







(** Whatever the topic, the first thing [run] asks of the API is the
    research on that topic: it does not look at the topic itself. *)
Lemma research_comes_first topic (K : jsstring -> M RunResult) e1 o1 m1 e2 o2 m2 :
  (forall r, Keeps moreCalls (K r)) ->
  forall w, exists more,
    llmCalls (trace (snd (bind (emitProgress (js "research") e1 o1 m1) (fun _ =>
                          bind (emitProgress (js "research") e2 o2 m2) (fun _ =>
                          bind (researchRun topic) K)) w)))
    = llmCalls (trace w) ++ (Research, researchPromptVars topic) :: more.
Proof.
  intros HK [l c u ge ls sk pd bk tr].
  destruct ge, l as [|[r|e] l];
    cbv beta iota zeta delta
      [bind emitProgress emit getGlobalEmitter getListeners logAll ret researchRun
       invoke llm clock uuidsDrawn globalEmitter listeners sinks pending bucket
       trace];
    cbn [snd];
    try (exists []; cbv beta iota delta [trace];
         repeat rewrite llmCalls_app; repeat rewrite llmCalls_emit;
         repeat rewrite app_nil_r; reflexivity);
    match goal with
    | |- context [K r ?W] =>
        destruct (HK r W) as [more Hmore]; exists more;
        destruct (K r W) as [res [l' c' u' ge' ls' sk' pd' bk' tr']];
        cbv beta iota delta [trace snd] in Hmore |- *;
        rewrite Hmore;
        repeat rewrite llmCalls_app; repeat rewrite llmCalls_emit;
        repeat rewrite app_nil_r; rewrite <- app_assoc; reflexivity
    end.
Qed.

Lemma run_asks_for_research topic options w :
  exists more,
    llmCalls (trace (snd (run topic options w)))
    = llmCalls (trace w) ++ (Research, researchPromptVars topic) :: more.
Proof.
  unfold run. cbv zeta. apply research_comes_first.
  intros r. expose. walk moreCalls_refl moreCalls_trans moreCalls_prim.
Qed.


End WithPlatform.
End WorkflowFacts.
(* ================================================================== *)
(** * The serverless handler and the web server's route *)
(* ================================================================== *)

Module LambdaFacts.
Import JsString JsStringFacts Runtime Agents Workflow Lambda Observed ObservedFacts Steps Walk.

(** Settles the tests of the router on literal methods and paths. *)
Ltac literal_ne :=
  let E := fresh "E" in
  first [ intros [E _] | intros [_ E] | intros E ];
  vm_compute in E; congruence.

Ltac route_no := rewrite decide_False by literal_ne.
Ltac route_yes := rewrite decide_True by (first [split; reflexivity | reflexivity]).






Section WithPlatform.
Context `{Platform}.


Lemma requireTopic_blank topic w :
  missingOrBlank topic -> requireTopic topic w = (Returned None, w).
Proof.
  intros [->|(s & -> & Hs)]; [reflexivity|].
  unfold requireTopic, ret. unfold blank in Hs. rewrite Hs. reflexivity.
Qed.


(** C2, as the code has it: an empty or white-space-only topic is turned
    down by the serverless handler, whether invoked directly or through
    POST /api/workflow or POST /api/workflow-sync, with "Topic is
    required" and before anything else is done: the world is left as it
    was, so no stage agent is called and no progress event emitted.
    [run] itself does not look at the topic: for every topic its first
    request is the research on it. *)
Theorem blank_topic_turned_down topic options w :
  blank topic ->
  (forall publishHTML outputDir,
      handler (Direct (Some topic) publishHTML outputDir) w
      = (Returned (Plain topicRequired), w))
  /\ (forall fields,
        lookupField (js "topic") fields = Some (JStr topic) ->
        handler (ApiGateway (js "POST") (js "/api/workflow")
                   (Some (Parses (JObj fields)))) w
        = (Returned (Http (createJSONResponse 400 topicRequired)), w)
        /\ handler (ApiGateway (js "POST") (js "/api/workflow-sync")
                      (Some (Parses (JObj fields)))) w
           = (Returned (Http (createJSONResponse 400 topicRequired)), w))
  /\ (exists more,
        llmCalls (trace (snd (run topic options w)))
        = llmCalls (trace w) ++ (Research, researchPromptVars topic) :: more).
Proof.
  intros Hb. split; [|split].
  - intros ph od. unfold handler.
    destruct topic as [|c t]; [reflexivity|].
    unfold blank in Hb. rewrite Hb. reflexivity.
  - intros fields Hf.
    assert (Ht : missingOrBlank (lookupField (js "topic") fields)).
    { right. exists topic. split; assumption. }
    split.
    + unfold handler. route_no. route_no. route_yes.
      unfold postWorkflow, tryCatch, bind, readTopic, ret, getField.
      rewrite (requireTopic_blank _ w Ht). reflexivity.
    + unfold handler. route_no. route_no. route_no.
      replace (matchesStatusRoute (js "/api/workflow-sync")) with false by reflexivity.
      cbn [andb]. route_yes.
      unfold postWorkflowSync, tryCatch, bind, readTopic, ret, getField.
      rewrite (requireTopic_blank _ w Ht). reflexivity.
  - apply WorkflowFacts.run_asks_for_research.
Qed.

End WithPlatform.
End LambdaFacts.
(* ================================================================== *)
(** * The life of a job *)
(* ================================================================== *)

Module JobFacts.
Import JsString JsStringFacts Runtime Agents Workflow Lambda Observed ObservedFacts
       Steps Walk LambdaFacts.

Lemma jobKey_inj a b : jobKey a = jobKey b -> a = b.
Proof.
  unfold jobKey. intros E. apply app_inv_head in E. apply app_inv_tail in E. exact E.
Qed.

Lemma writesTo_put k key r :
  writesTo k [S3Put key r] = if decide (k = key) then [r] else [].
Proof.
  unfold writesTo. simpl.
  destruct (decide (key = k)), (decide (k = key)); congruence.
Qed.

Lemma readTopic_cases body w :
  (exists t, readTopic body w = (Returned t, w))
  \/ (exists e, readTopic body w = (Thrown e, w)).
Proof. destruct body as [[|[]]|]; cbn; eauto. Qed.

Lemma requireTopic_cases topic w :
  (exists o, requireTopic topic w = (Returned o, w))
  \/ (exists e, requireTopic topic w = (Thrown e, w)).
Proof.
  destruct topic as [[| [] | [] | s | |]|]; cbn; eauto.
Qed.

(** One more bind of a computation that leaves the store alone. *)
Lemma after_quiet {A B} (c : M A) (k : A -> M B) (w0 w : World)
      (Q : Outcome B * World -> Prop) :
  Keeps storeUntouched c -> storeUntouched w0 w ->
  (forall a w1, storeUntouched w0 w1 -> Q (k a w1)) ->
  (forall e w1, storeUntouched w0 w1 -> Q (Thrown e, w1)) ->
  Q (bind c k w).
Proof.
  intros Hc Hw Hk He. unfold bind. specialize (Hc w).
  destruct (c w) as [[a|e] w1]; cbn [snd] in Hc;
    [apply Hk | apply He]; eapply storeUntouched_trans; eauto.
Qed.

Lemma s3Put_wrote key r w0 w1 :
  storeUntouched w0 w1 ->
  fst (s3Put key r w1) = Returned tt
  /\ wrote key r w0 (snd (s3Put key r w1))
  /\ uuidsDrawn (snd (s3Put key r w1)) = uuidsDrawn w0
  /\ pending (snd (s3Put key r w1)) = pending w0.
Proof.
  intros (Hb & Hp & Hu & Hw). unfold s3Put, wrote. cbn [fst snd bucket trace uuidsDrawn pending].
  split; [reflexivity|]. split; [|split; assumption].
  split; [rewrite Hb; reflexivity|].
  intros k. rewrite writesTo_app, Hw, writesTo_put. reflexivity.
Qed.

Ltac quiet := expose; walk storeUntouched_refl storeUntouched_trans storeUntouched_prim.

Section WithPlatform.
Context `{Platform}.

Lemma now_quiet : Keeps storeUntouched now.
Proof. quiet. Qed.

(** However the run goes, [runWorkflowAsync] returns and has written
    one object: a terminal record under the key of the job. *)
Lemma runWorkflowAsync_effect jobId topic w0 :
  let res := runWorkflowAsync jobId topic w0 in
  fst res = Returned tt
  /\ exists r1, terminal r1 /\ wrote (jobKey jobId) r1 w0 (snd res)
                /\ uuidsDrawn (snd res) = uuidsDrawn w0
                /\ pending (snd res) = pending w0.
Proof.
  set (Q := fun res : Outcome () * World =>
              match res with
              | (Returned _, w') =>
                  exists r1, terminal r1 /\ wrote (jobKey jobId) r1 w0 w'
                             /\ uuidsDrawn w' = uuidsDrawn w0 /\ pending w' = pending w0
              | (Thrown _, w') => storeUntouched w0 w'
              end).
  unfold runWorkflowAsync, tryCatch.
  match goal with |- context [match ?body w0 with _ => _ end] =>
    assert (Hbody : Q (body w0))
  end.
  { unfold progressEventsOf.
    repeat (apply after_quiet with (w0 := w0);
            [ quiet
            | first [assumption | apply storeUntouched_refl]
            | intros ? ? ?
            | intros ? ? ?; assumption ]).
    lazymatch goal with
    | Hq : storeUntouched w0 ?w1 |- Q (s3Put ?key ?r ?w1) =>
        destruct (s3Put_wrote key r w0 w1 Hq) as (Hf & Hw & Hu & Hp);
        unfold Q;
        destruct (s3Put key r w1) as [[[]|e] w']; cbn [fst snd] in *;
        [|discriminate Hf];
        exists r; split; [left; reflexivity | split; [exact Hw | split; [exact Hu | exact Hp]]]
    end. }
  match goal with |- context [match ?body w0 with _ => _ end] =>
    destruct (body w0) as [[[]|e] w1]
  end; cbn [fst snd] in *.
  - split; [reflexivity | exact Hbody].
  - unfold bind, now. cbn [fst snd].
    match goal with
    | |- context [s3Put ?key ?r ?w2] =>
        assert (Hq : storeUntouched w0 w2)
          by (eapply storeUntouched_trans; [exact Hbody | repeat split]);
        destruct (s3Put_wrote key r w0 w2 Hq) as (Hf & Hw & Hu & Hp);
        split; [exact Hf|];
        exists r; split; [right; reflexivity | split; [exact Hw | split; [exact Hu | exact Hp]]]
    end.
Qed.

(** ** What an invocation and a settling do to the store *)

Lemma runCollecting_quiet topic options : Keeps storeUntouched (runCollecting topic options).
Proof. unfold runCollecting, progressEventsOf. quiet. Qed.

Lemma getStatus_quiet path : Keeps storeUntouched (getStatus path).
Proof.
  unfold getStatus. apply (Keeps_tryCatch _ storeUntouched_trans).
  - apply (Keeps_bind _ storeUntouched_trans); [|intros ?; apply (Keeps_ret _ storeUntouched_refl)].
    intros w. unfold s3Get. destruct (bucket w !! _); apply storeUntouched_refl.
  - intros e. destruct (decide _); apply (Keeps_ret _ storeUntouched_refl).
Qed.

Lemma readTopic_quiet body : Keeps storeUntouched (readTopic body).
Proof.
  intros w. destruct (readTopic_cases body w) as [[t ->]|[e ->]]; apply storeUntouched_refl.
Qed.

Lemma requireTopic_quiet topic : Keeps storeUntouched (requireTopic topic).
Proof.
  intros w. destruct (requireTopic_cases topic w) as [[t ->]|[e ->]]; apply storeUntouched_refl.
Qed.

Lemma postWorkflowSync_quiet body : Keeps storeUntouched (postWorkflowSync body).
Proof.
  unfold postWorkflowSync. apply (Keeps_tryCatch _ storeUntouched_trans).
  - apply (Keeps_bind _ storeUntouched_trans); [apply readTopic_quiet | intros t].
    apply (Keeps_bind _ storeUntouched_trans); [apply requireTopic_quiet | intros [s|]].
    + apply (Keeps_bind _ storeUntouched_trans); [apply runCollecting_quiet | intros ?].
      apply (Keeps_ret _ storeUntouched_refl).
    + apply (Keeps_ret _ storeUntouched_refl).
  - intros e. apply (Keeps_ret _ storeUntouched_refl).
Qed.

Lemma postWorkflow_effect body w :
  storeUntouched w (snd (postWorkflow body w)) \/ created w (snd (postWorkflow body w)).
Proof.
  remember (snd (postWorkflow body w)) as w' eqn:E.
  unfold postWorkflow, tryCatch in E. unfold bind at 1 in E.
  destruct (readTopic_cases body w) as [[t Ht]|[e Ht]]; rewrite Ht in E;
    [|left; subst w'; apply storeUntouched_refl].
  unfold bind at 1 in E.
  destruct (requireTopic_cases t w) as [[[s|] Hs]|[e Hs]]; rewrite Hs in E;
    [|left; subst w'; apply storeUntouched_refl..].
  right. destruct w as [l c u ge ls sk pd bk tr].
  cbv beta iota zeta delta
    [bind drawUUID now s3Put spawn getPending setPending ret snd
     llm clock uuidsDrawn globalEmitter listeners sinks pending bucket trace] in E.
  subst w'. unfold created. cbn [uuidsDrawn pending].
  lazymatch goal with |- context [S3Put _ ?R] => exists s, R end.
  split; [reflexivity|].
  split; [|split; reflexivity].
  split; [reflexivity|]. intros k. cbn [trace].
  rewrite writesTo_app, writesTo_put. reflexivity.
Qed.

Lemma bind_ret_world {A B} (c : M A) (f : A -> B) w :
  snd (bind c (fun a => ret (f a)) w) = snd (c w).
Proof. unfold bind, ret. destruct (c w) as [[a|e] w']; reflexivity. Qed.

Lemma handler_effect event w :
  storeUntouched w (snd (handler event w)) \/ created w (snd (handler event w)).
Proof.
  destruct event as [topic ph od | method path body]; unfold handler.
  - left. destruct topic as [[|c t]|]; try apply storeUntouched_refl.
    destruct (trim (c :: t)); [apply storeUntouched_refl|].
    apply (Keeps_tryCatch _ storeUntouched_trans).
    + apply (Keeps_bind _ storeUntouched_trans); [apply runCollecting_quiet | intros ?].
      apply (Keeps_ret _ storeUntouched_refl).
    + intros e. apply (Keeps_ret _ storeUntouched_refl).
  - destruct (decide (method = js "OPTIONS")); [left; apply storeUntouched_refl|].
    destruct (decide (path = js "/health" /\ method = js "GET")).
    { left. rewrite bind_ret_world. apply now_quiet. }
    destruct (decide (path = js "/api/workflow" /\ method = js "POST")).
    { rewrite bind_ret_world. apply postWorkflow_effect. }
    destruct (matchesStatusRoute path && bool_decide (method = js "GET")).
    { left. rewrite bind_ret_world. apply getStatus_quiet. }
    destruct (decide (path = js "/api/workflow-sync" /\ method = js "POST")).
    { left. rewrite bind_ret_world. apply postWorkflowSync_quiet. }
    left. apply storeUntouched_refl.
Qed.

Lemma settle_effect i w :
  snd (settle i w) = w \/ settledAs i w (snd (settle i w)).
Proof.
  unfold settle, bind, getPending.
  destruct (pending w !! i) as [[jobId topic]|] eqn:E; [|left; reflexivity].
  right. unfold setPending.
  match goal with |- context [runWorkflowAsync jobId topic ?w2] =>
    destruct (runWorkflowAsync_effect jobId topic w2) as (_ & r1 & Ht & [Hb Hw] & Hu & Hp);
    set (w' := snd (runWorkflowAsync jobId topic w2)) in *
  end.
  cbn [bucket trace uuidsDrawn pending] in *.
  exists jobId, topic, r1. repeat split; assumption.
Qed.

(** ** The invariant *)

Lemma jobState_same jobId w w' :
  writesTo (jobKey jobId) (trace w') = writesTo (jobKey jobId) (trace w) ->
  bucket w' !! jobKey jobId = bucket w !! jobKey jobId ->
  (jobId ∈ (pending w').*1 <-> jobId ∈ (pending w).*1) ->
  jobState jobId w -> jobState jobId w'.
Proof.
  unfold jobState. intros -> -> Hp.
  destruct (writesTo (jobKey jobId) (trace w)) as [|r0 [|r1 [|]]]; tauto.
Qed.

Lemma jobsKnown_untouched w w' : storeUntouched w w' -> jobsKnown w -> jobsKnown w'.
Proof.
  intros (Hb & Hp & Hu & Hw) (Hs & Hn & Hk). split; [|split].
  - intros jobId. apply (jobState_same jobId w); [apply Hw | rewrite Hb | rewrite Hp |]; auto.
  - rewrite Hp. exact Hn.
  - intros jobId. rewrite Hp, Hw, Hu. apply Hk.
Qed.

Lemma fresh_jobsKnown w : freshProcess w -> jobsKnown w.
Proof.
  intros (Ht & Hp & Hb & Hu). split; [|split].
  - intros jobId. unfold jobState. rewrite Ht, Hp, Hb. cbn.
    split; [apply lookup_empty | apply not_elem_of_nil].
  - rewrite Hp. constructor.
  - intros jobId. rewrite Hp, Ht. cbn. intros [Hin|Hne]; [|contradiction].
    apply not_elem_of_nil in Hin. contradiction.
Qed.

Section Unique.
(** [randomUUID] never gives the same identifier twice. *)
Hypothesis randomUUID_inj : forall m n, randomUUID m = randomUUID n -> m = n.

Lemma jobsKnown_created w w' : created w w' -> jobsKnown w -> jobsKnown w'.
Proof.
  intros (topic & r0 & Hr0 & [Hb Hw] & Hu & Hp) (Hs & Hn & Hk).
  set (j := randomUUID (uuidsDrawn w)) in *.
  assert (Hfresh : (j ∉ (pending w).*1) /\ writesTo (jobKey j) (trace w) = []).
  { assert (Hno : ~ (j ∈ (pending w).*1 \/ writesTo (jobKey j) (trace w) <> [])).
    { intros Hj. destruct (Hk j Hj) as (n & Hlt & Hn').
      apply randomUUID_inj in Hn'. lia. }
    split; [tauto|].
    destruct (writesTo (jobKey j) (trace w)); [reflexivity|].
    exfalso. apply Hno. right. discriminate. }
  destruct Hfresh as [Hjp Hjw].
  assert (Hmem : forall jobId, jobId ∈ (pending w').*1 <-> jobId ∈ (pending w).*1 \/ jobId = j).
  { intros jobId. rewrite Hp, fmap_app, elem_of_app. cbn.
    rewrite list_elem_of_singleton. reflexivity. }
  split; [|split].
  - intros jobId. destruct (decide (jobId = j)) as [->|Hne].
    + unfold jobState. rewrite Hw, Hjw, decide_True by reflexivity. cbn.
      split; [exact Hr0|]. split; [rewrite Hb; apply lookup_insert_eq|].
      apply Hmem. right. reflexivity.
    + apply (jobState_same jobId w).
      * rewrite Hw, decide_False; [apply app_nil_r|].
        intros E. apply Hne, jobKey_inj, E.
      * rewrite Hb. apply lookup_insert_ne. intros E. apply Hne. symmetry. apply jobKey_inj, E.
      * rewrite Hmem. tauto.
      * apply Hs.
  - rewrite Hp, fmap_app. apply NoDup_app. split; [exact Hn|]. split.
    + intros x Hx Hx'. cbn in Hx'. apply list_elem_of_singleton in Hx'. subst x. contradiction.
    + cbn. apply NoDup_singleton.
  - intros jobId Hj. rewrite Hu.
    destruct (decide (jobId = j)) as [->|Hne]; [exists (uuidsDrawn w); split; [lia | reflexivity]|].
    destruct (Hk jobId) as (n & Hlt & Hn').
    + destruct Hj as [Hj|Hj]; [left; apply Hmem in Hj; tauto|].
      right. rewrite Hw, decide_False in Hj; [rewrite app_nil_r in Hj; exact Hj|].
      intros E. apply Hne, jobKey_inj, E.
    + exists n. split; [lia | exact Hn'].
Qed.

End Unique.

Lemma pending_delete (p : list (jsstring * jsstring)) i jobId topic :
  p !! i = Some (jobId, topic) -> NoDup p.*1 ->
  (jobId ∉ (delete i p).*1)
  /\ NoDup (delete i p).*1
  /\ forall x, x <> jobId -> (x ∈ (delete i p).*1 <-> x ∈ p.*1).
Proof.
  intros Hi Hn.
  rewrite delete_take_drop.
  rewrite <- (take_drop_middle p i _ Hi) in Hn at 1.
  rewrite fmap_app in Hn. cbn in Hn.
  apply NoDup_app in Hn as (Hn1 & Hd & Hn2).
  apply NoDup_cons in Hn2 as [Hj Hn2].
  rewrite fmap_app. split; [|split].
  - rewrite elem_of_app. intros [Hin|Hin]; [|contradiction].
    apply (Hd _ Hin). left.
  - apply NoDup_app. split; [exact Hn1|]. split; [|exact Hn2].
    intros x Hx Hx'. apply (Hd _ Hx); right; exact Hx'.
  - intros x Hx. rewrite <- (take_drop_middle p i _ Hi) at 3.
    rewrite fmap_app. cbn. rewrite !elem_of_app, elem_of_cons. tauto.
Qed.

Lemma jobsKnown_settled i w w' : settledAs i w w' -> jobsKnown w -> jobsKnown w'.
Proof.
  intros (j & topic & r1 & Hi & Hr1 & [Hb Hw] & Hu & Hp) (Hs & Hn & Hk).
  destruct (pending_delete _ _ _ _ Hi Hn) as (Hj & Hn' & Hmem).
  assert (Hjp : j ∈ (pending w).*1).
  { apply list_elem_of_fmap. exists (j, topic). split; [reflexivity|].
    apply list_elem_of_lookup. exists i. exact Hi. }
  split; [|split].
  - intros jobId. destruct (decide (jobId = j)) as [->|Hne].
    + pose proof (Hs j) as Hsj. unfold jobState in *.
      rewrite Hw, decide_True by reflexivity.
      destruct (writesTo (jobKey j) (trace w)) as [|r0 [|r [|]]]; cbn.
      * destruct Hsj as [_ Hsj]. contradiction.
      * destruct Hsj as (Hr0 & _ & _). split; [exact Hr0|]. split; [exact Hr1|].
        split; [rewrite Hb; apply lookup_insert_eq | rewrite Hp; exact Hj].
      * destruct Hsj as (_ & _ & _ & Hsj). contradiction.
      * contradiction.
    + apply (jobState_same jobId w).
      * rewrite Hw, decide_False; [apply app_nil_r|].
        intros E. apply Hne, jobKey_inj, E.
      * rewrite Hb. apply lookup_insert_ne. intros E. apply Hne. symmetry. apply jobKey_inj, E.
      * rewrite Hp. apply Hmem, Hne.
      * apply Hs.
  - rewrite Hp. exact Hn'.
  - intros jobId Hjob. rewrite Hu.
    destruct (decide (jobId = j)) as [->|Hne]; [apply Hk; left; exact Hjp|].
    apply Hk. destruct Hjob as [Hjob|Hjob].
    + left. rewrite Hp in Hjob. apply Hmem in Hjob; assumption.
    + right. rewrite Hw, decide_False in Hjob; [rewrite app_nil_r in Hjob; exact Hjob|].
      intros E. apply Hne, jobKey_inj, E.
Qed.

(** Writes are only added. *)
Lemma perform_writes a w key :
  exists extra, writesTo key (trace (perform a w)) = writesTo key (trace w) ++ extra.
Proof.
  destruct a as [event|i]; unfold perform.
  - destruct (handler_effect event w) as [(_ & _ & _ & Hw)|(t & r0 & _ & [_ Hw] & _)].
    + exists []. rewrite Hw, app_nil_r. reflexivity.
    + eexists. apply Hw.
  - destruct (settle_effect i w) as [->|(j & t & r1 & _ & _ & [_ Hw] & _)].
    + exists []. rewrite app_nil_r. reflexivity.
    + eexists. apply Hw.
Qed.

Lemma exec_writes actions w key :
  exists extra, writesTo key (trace (exec actions w)) = writesTo key (trace w) ++ extra.
Proof.
  revert w. induction actions as [|a actions IH]; intros w.
  - exists []. rewrite app_nil_r. reflexivity.
  - cbn. destruct (IH (perform a w)) as [e2 H2].
    destruct (perform_writes a w key) as [e1 H1].
    exists (e1 ++ e2). unfold exec in H2. rewrite H2, H1, app_assoc. reflexivity.
Qed.

Lemma exec_app actions more w : exec (actions ++ more) w = exec more (exec actions w).
Proof. apply fold_left_app. Qed.

Section UniqueIds.
Hypothesis randomUUID_inj : forall m n, randomUUID m = randomUUID n -> m = n.

Lemma perform_jobsKnown a w : jobsKnown w -> jobsKnown (perform a w).
Proof.
  intros Hw. destruct a as [event|i]; unfold perform.
  - destruct (handler_effect event w) as [Hq|Hc].
    + exact (jobsKnown_untouched _ _ Hq Hw).
    + exact (jobsKnown_created randomUUID_inj _ _ Hc Hw).
  - destruct (settle_effect i w) as [->|Hs]; [exact Hw|].
    exact (jobsKnown_settled _ _ _ Hs Hw).
Qed.

Lemma exec_jobsKnown actions w : jobsKnown w -> jobsKnown (exec actions w).
Proof.
  revert w. induction actions as [|a actions IH]; intros w Hw; [exact Hw|].
  cbn. apply IH, perform_jobsKnown, Hw.
Qed.

(** C5: in a process started with an empty bucket and drawing a fresh
    identifier for every job, whatever requests arrive and whenever the
    started runs settle, the writes to a job's record are none (no such
    job), or one [processing] record while its run is pending, or that
    record followed by exactly one [completed] or [failed] record once
    the run has settled, and the bucket holds the last one written; once
    the terminal record is written nothing more is written to that key,
    so every later read gives that same record. *)
Theorem job_record_lifecycle w0 actions jobId :
  freshProcess w0 ->
  jobState jobId (exec actions w0)
  /\ forall r0 r1,
       writesTo (jobKey jobId) (trace (exec actions w0)) = [r0; r1] ->
       forall more,
         writesTo (jobKey jobId) (trace (exec (actions ++ more) w0)) = [r0; r1]
         /\ s3Get (jobKey jobId) (exec (actions ++ more) w0)
            = (Returned r1, exec (actions ++ more) w0).
Proof.
  intros Hfresh.
  assert (Hk : forall acts, jobsKnown (exec acts w0))
    by (intros acts; apply exec_jobsKnown, fresh_jobsKnown, Hfresh).
  split; [apply Hk|].
  intros r0 r1 Hw more.
  destruct (Hk (actions ++ more)) as [Hs _]. specialize (Hs jobId).
  destruct (exec_writes more (exec actions w0) (jobKey jobId)) as [extra He].
  rewrite <- exec_app, Hw in He.
  unfold jobState in Hs. unfold s3Get. rewrite He in *.
  destruct extra as [|x extra]; cbn [app] in Hs; [|contradiction].
  destruct Hs as (_ & _ & Hb & _). rewrite Hb. split; reflexivity.
Qed.

End UniqueIds.

End WithPlatform.
End JobFacts.
(* ================================================================== *)
(** * EnhancedContentWorkflow.runBatch *)
(* ================================================================== *)

Module BatchFacts.
Import JsString JsStringFacts Runtime Agents Workflow Observed ObservedFacts Steps Walk
       WorkflowFacts.

Section WithPlatform.
Context `{Platform}.








End WithPlatform.
End BatchFacts.
(* ================================================================== *)
(** * The theorems at work, and where the code departs from the claims *)
(* ================================================================== *)

Module Examples.
Import JsString JsStringFacts Runtime Agents Workflow Lambda Observed.

#[local] Existing Instance exampleHost.

Lemma exampleHost_ids_differ m n : randomUUID m = randomUUID n -> m = n.
Proof.
  intros E.
  change (js "job" ++ replicate m hyphen = js "job" ++ replicate n hyphen) in E.
  apply app_inv_head in E.
  apply (f_equal length) in E. rewrite !length_replicate in E. exact E.
Qed.


(** ** C2: [run] does not turn a blank topic down *)
Lemma blank_topic_runs :
  blank (js "   ")
  /\ is_Some (valueOf (fst (run (js "   ") defaults
                              (exampleWorld (map Returned sixReplies) true))))
  /\ length (llmCalls (trace (snd (run (js "   ") defaults
                                     (exampleWorld (map Returned sixReplies) true)))))
     = 6%nat
  /\ length (emitted (trace (snd (run (js "   ") defaults
                                    (exampleWorld (map Returned sixReplies) true)))))
     = 18%nat.
Proof. vm_compute. repeat split. eexists. reflexivity. Qed.

Lemma blank_topic_turned_down_witness :
  handler (Direct (Some (js "   ")) None None) (exampleWorld [] true)
  = (Returned (Plain topicRequired), exampleWorld [] true).
Proof.
  apply (LambdaFacts.blank_topic_turned_down (js "   ") defaults (exampleWorld [] true)).
  reflexivity.
Defined.





(** ** C5 *)
Lemma exampleWorld_fresh replies emitterSet : freshProcess (exampleWorld replies emitterSet).
Proof. repeat split. Qed.

Lemma job_record_lifecycle_witness :
  jobState (js "job") (exec [startJob; Settle 0]
                            (exampleWorld (map Returned sixReplies) true)).
Proof.
  exact (proj1 (JobFacts.job_record_lifecycle exampleHost_ids_differ
                  (exampleWorld (map Returned sixReplies) true)
                  [startJob; Settle 0] (js "job")
                  (exampleWorld_fresh (map Returned sixReplies) true))).
Defined.





(** ** C8: a reply that talks before the document *)
(** C8: for the topic "Quantum Computing" and stages that all succeed,
    the title of the result is the topic and its word count is positive;
    but when the reply of the HTML stage has text before its doctype the
    HTML content is that reply as it came and does not begin with
    [<!DOCTYPE html>]. *)
Theorem quantum_computing_html_prefix :
  exists result h,
    fst (run (js "Quantum Computing") defaults
             (exampleWorld (map Returned chattyReplies) true))
    = Returned result
    /\ title (metadata (markdown result)) = js "Quantum Computing"
    /\ (0 < wordCount (metadata (markdown result)))%nat
    /\ html result = Some h
    /\ htmlContent h
       = js "Here is the page: <!DOCTYPE html><html><body>Qubits</body></html>"
    /\ startsWith (js "<!DOCTYPE html>") (htmlContent h) = false.
Proof.
  eexists _, _. split; [vm_compute; reflexivity|].
  split; [reflexivity|]. split; [vm_compute; lia|].
  split; [reflexivity|]. split; vm_compute; reflexivity.
Qed.

End Examples.
